(** * contractRead: the payment-gated query pipeline of [server/index.js]

    A shallow embedding of the Express server: the three API handlers, the
    in-memory [paidSessions] object, the upload directory, and the calls the
    handlers make to the runtime and to the hosted providers.  Handlers are
    functions from a server state to an outcome (new state, response, trace of
    the calls performed); the providers and the decoding libraries are the
    fields of a [World] that the handler is run against. *)

From stdpp Require Import gmap list strings.
From Stdlib Require Import QArith.

Local Open Scope N_scope.
Local Open Scope list_scope.

(** ** JavaScript strings

    A string is its sequence of UTF-16 code units. *)

Abbreviation jsstring := (list N).

Definition js (s : string) : jsstring :=
  (λ a, Ascii.N_of_ascii a) <$> String.list_ascii_of_string s.

(** WhiteSpace and LineTerminator code points of ECMAScript, the ones
    [String.prototype.trim] strips. *)
Definition is_white_space (c : N) : bool :=
  (c =? 0x9) || (c =? 0xA) || (c =? 0xB) || (c =? 0xC) || (c =? 0xD) ||
  (c =? 0x20) || (c =? 0xA0) || (c =? 0x1680) ||
  ((0x2000 <=? c) && (c <=? 0x200A)) ||
  (c =? 0x2028) || (c =? 0x2029) || (c =? 0x202F) || (c =? 0x205F) ||
  (c =? 0x3000) || (c =? 0xFEFF).

Fixpoint trimStart (s : jsstring) : jsstring :=
  match s with
  | c :: s' => if is_white_space c then trimStart s' else s
  | [] => []
  end.

Definition trimEnd (s : jsstring) : jsstring := rev (trimStart (rev s)).

Definition trim (s : jsstring) : jsstring := trimEnd (trimStart s).

(** [String.prototype.toLowerCase] on the ASCII letters.  Code units outside
    [A-Z] are left as they are: no Unicode lower-case mapping produces one of
    the units of [".pdf"] from a non-ASCII unit, so the one comparison the
    server makes on a lower-cased string is not affected. *)
Definition lower_unit (c : N) : N :=
  if (0x41 <=? c) && (c <=? 0x5A) then c + 0x20 else c.

Definition toLowerCase (s : jsstring) : jsstring := lower_unit <$> s.

(** [Array.prototype.join] on an array of strings. *)
Fixpoint join (sep : jsstring) (l : list jsstring) : jsstring :=
  match l with
  | [] => []
  | [s] => s
  | s :: l' => s ++ sep ++ join sep l'
  end.

(** A [Buffer]: the bytes of a file. *)
Abbreviation Buffer := (list Byte.byte).

(** ** JavaScript values

    The values the handlers touch: [undefined], booleans, strings, arrays of
    strings (a repeated form field or query parameter), and the objects and
    functions of the runtime, which the handlers only test for truthiness. *)

Inductive jsval :=
  | JUndefined
  | JBool (b : bool)
  | JString (s : jsstring)
  | JArray (l : list jsstring)
  | JObject.

Definition truthy (v : jsval) : bool :=
  match v with
  | JUndefined => false
  | JBool b => b
  | JString [] => false
  | JString (_ :: _) => true
  | JArray _ => true
  | JObject => true
  end.

(** ToString, as applied by a template literal and by a computed property
    access. *)
Definition ToString (v : jsval) : jsstring :=
  match v with
  | JUndefined => js "undefined"
  | JBool true => js "true"
  | JBool false => js "false"
  | JString s => s
  | JArray l => join (js ",") l
  | JObject => js "[object Object]"
  end.

(** [v === s] for a string literal [s]. *)
Definition strict_eq_string (v : jsval) (s : jsstring) : bool :=
  match v with
  | JString s' => bool_decide (s' = s)
  | _ => false
  end.

(** ** Parsed request fields

    The body multer builds from a multipart form, and the query string Express
    parses, hold for each name a string, or an array of strings when the name
    is repeated.  Both containers are looked up by name; a name that is not
    there reads as [undefined]. *)

Inductive field :=
  | FText (s : jsstring)
  | FList (l : list jsstring).

Definition field_value (f : option field) : jsval :=
  match f with
  | None => JUndefined
  | Some (FText s) => JString s
  | Some (FList l) => JArray l
  end.

Definition prop (o : gmap jsstring field) (name : string) : jsval :=
  field_value (o !! js name).

(** ** Plain objects used as maps

    [paidSessions] is created by the literal [{}]: its own properties are the
    recorded identifiers, and it inherits from [Object.prototype]. *)

Definition Object_prototype : list jsstring :=
  js <$> ["constructor"; "__defineGetter__"; "__defineSetter__";
          "hasOwnProperty"; "__lookupGetter__"; "__lookupSetter__";
          "isPrototypeOf"; "propertyIsEnumerable"; "toString"; "valueOf";
          "__proto__"; "toLocaleString"]%string.

(** [o[k]]: the own property, else the inherited one, else [undefined]. *)
Definition get_property (o : gmap jsstring jsval) (k : jsval) : jsval :=
  match o !! ToString k with
  | Some v => v
  | None => if bool_decide (ToString k ∈ Object_prototype) then JObject else JUndefined
  end.

(** [o[k] = v] for a primitive [v]: every inherited member is a writable data
    property, which the assignment shadows with an own property, except the
    [__proto__] accessor, whose setter ignores a primitive. *)
Definition set_property (o : gmap jsstring jsval) (k : jsval) (v : jsval)
  : gmap jsstring jsval :=
  if bool_decide (ToString k = js "__proto__") then o else <[ToString k := v]> o.

(** ** [path.extname] (POSIX)

    The loop of Node's implementation, which scans the path from its end. *)

Record ext_scan := {
  startDot : Z;
  startPart : Z;
  end_ : Z;
  matchedSlash : bool;
  preDotState : Z
}.

Definition CHAR_FORWARD_SLASH : N := 47.
Definition CHAR_DOT : N := 46.

Fixpoint extname_scan (cs : list (Z * N)) (s : ext_scan) : ext_scan :=
  match cs with
  | [] => s
  | (i, code) :: cs' =>
    if code =? CHAR_FORWARD_SLASH then
      if negb (matchedSlash s) then
        {| startDot := startDot s; startPart := i + 1; end_ := end_ s;
           matchedSlash := matchedSlash s; preDotState := preDotState s |}
      else extname_scan cs' s
    else
      let s1 :=
        if (end_ s =? -1)%Z then
          {| startDot := startDot s; startPart := startPart s; end_ := i + 1;
             matchedSlash := false; preDotState := preDotState s |}
        else s in
      let s2 :=
        if code =? CHAR_DOT then
          if (startDot s1 =? -1)%Z then
            {| startDot := i; startPart := startPart s1; end_ := end_ s1;
               matchedSlash := matchedSlash s1; preDotState := preDotState s1 |}
          else if negb (preDotState s1 =? 1)%Z then
            {| startDot := startDot s1; startPart := startPart s1; end_ := end_ s1;
               matchedSlash := matchedSlash s1; preDotState := 1 |}
          else s1
        else if negb (startDot s1 =? -1)%Z then
          {| startDot := startDot s1; startPart := startPart s1; end_ := end_ s1;
             matchedSlash := matchedSlash s1; preDotState := -1 |}
        else s1 in
      extname_scan cs' s2
  end.

Definition indexed (s : jsstring) : list (Z * N) :=
  imap (λ i c, (Z.of_nat i, c)) s.

Definition slice (s : jsstring) (from to : Z) : jsstring :=
  take (Z.to_nat (to - from)) (drop (Z.to_nat from) s).

Definition extname (path : jsstring) : jsstring :=
  let s := extname_scan (rev (indexed path))
             {| startDot := -1; startPart := 0; end_ := -1;
                matchedSlash := true; preDotState := 0 |} in
  if (startDot s =? -1)%Z || (end_ s =? -1)%Z || (preDotState s =? 0)%Z ||
     ((preDotState s =? 1)%Z && (startDot s =? end_ s - 1)%Z &&
      (startDot s =? startPart s + 1)%Z)
  then []
  else slice path (startDot s) (end_ s).

(** ** Server state, requests, responses

    The state a handler can see: the [stripe] client (defined at start-up when
    STRIPE_SECRET_KEY is set, never reassigned), the [paidSessions] object and
    the files on disk, by path. *)

Record State := {
  stripe : bool;
  paidSessions : gmap jsstring jsval;
  disk : gmap jsstring Buffer
}.

(** [req.file] as multer's disk storage fills it in. *)
Record File := {
  originalname : jsstring;
  path : jsstring
}.

Inductive role := system | user.

Record message := {
  role_of : role;
  content : jsstring
}.

(** The argument of [openai.chat.completions.create]. *)
Record ChatRequest := {
  model : jsstring;
  messages_of : list message;
  temperature : Q;
  max_tokens : N
}.

(** What the completion call resolves to; [None] stands for a member that is
    [undefined] or [null]. *)
Record ChatMessage := { message_content : option jsstring }.
Record Choice := { choice_message : option ChatMessage }.
Record Completion := { choices : option (list Choice) }.

(** The error a rejected Stripe call throws. *)
Record StripeError := {
  raw_message : jsval;
  err_message : jsval
}.

(** Everything outside the process that a handler consults while it runs one
    request: the environment variables, the two decoders, and what each
    provider call resolves to ([None]: the call throws or rejects). *)
Record World := {
  process_env : gmap jsstring jsstring;
  pdf : Buffer → option jsstring;
  toString_utf8 : Buffer → jsstring;
  chat_completions_create : ChatRequest → option Completion;
  checkout_sessions_create : (jsval * jsval) + StripeError;
  checkout_sessions_retrieve : jsval → option jsval
}.

Definition env (w : World) (name : string) : jsval :=
  match process_env w !! js name with
  | Some s => JString s
  | None => JUndefined
  end.

(** The calls a handler performs, in order. *)
Inductive event :=
  | EvReadFile (p : jsstring)
  | EvPdfParse (buffer : Buffer)
  | EvUnlink (p : jsstring)
  | EvChatCreate (r : ChatRequest)
  | EvSessionsCreate
  | EvSessionsRetrieve (id : jsval)
  | EvConsoleError (msg : jsstring).

Inductive json :=
  | Error (error : jsstring)
  | ErrorDetails (error : jsstring) (details : jsval)
  | Answer (answer : jsstring)
  | Paid (paid : bool)
  | Checkout (url id : jsval)
  | SendFile (name : jsstring).

Record Response := {
  status : N;
  body : json
}.

Record Outcome := {
  final : State;
  reply : Response;
  trace : list event
}.

Definition respond (st : State) (t : list event) (code : N) (b : json) : Outcome :=
  {| final := st; reply := {| status := code; body := b |}; trace := t |}.

(** [try { fs.unlinkSync(p) } catch {}]: the file is removed when it is there,
    and the error for a missing file is swallowed. *)
Definition unlinkSync (st : State) (p : jsstring) : State :=
  {| stripe := stripe st; paidSessions := paidSessions st;
     disk := delete p (disk st) |}.

(** ** POST /api/query *)

(** Line 65: [!question || typeof question !== 'string' ||
    question.trim().length === 0]. *)
Definition question_required (question : jsval) : bool :=
  negb (truthy question) ||
  match question with
  | JString s => (length (trim s) =? 0)%nat
  | _ => true
  end.

(** Line 72: [!sessionId || !paidSessions[sessionId]]. *)
Definition payment_required (paid : gmap jsstring jsval) (sessionId : jsval) : bool :=
  negb (truthy sessionId) || negb (truthy (get_property paid sessionId)).

(** Lines 77-88, the body of the [try]: the calls made and the text read, or
    [None] when one of them throws. *)
Definition contractText (w : World) (d : gmap jsstring Buffer) (file : File)
  : list event * option jsstring :=
  let ext := toLowerCase (extname (originalname file)) in
  match d !! path file with
  | None => ([EvReadFile (path file)], None)
  | Some buffer =>
    if bool_decide (ext = js ".pdf") then
      ([EvReadFile (path file); EvPdfParse buffer], pdf w buffer)
    else
      ([EvReadFile (path file)], Some (toString_utf8 w buffer))
  end.

Definition LF : N := 10.

Definition systemPrompt : jsstring :=
  js "You are a knowledgeable legal assistant. Answer the user's questions about the provided contract. " ++
  js "Only use information contained in the contract and avoid making assumptions. " ++
  js "If the contract does not specify the answer, respond that the information is not available.".

Definition messages (text : jsstring) (question : jsval) : list message :=
  [ {| role_of := system; content := systemPrompt |};
    {| role_of := user;
       content := js "Contract:" ++ [LF; LF] ++ text ++ [LF; LF] ++
                  js "Question: " ++ ToString question |} ].

Definition completion_request (text : jsstring) (question : jsval) : ChatRequest :=
  {| model := js "gpt-4o";
     messages_of := messages text question;
     temperature := 2 # 10;
     max_tokens := 512 |}.

(** Line 127: [completion.choices?.[0]?.message?.content?.trim() || '']. *)
Definition answer_of (completion : Completion) : jsstring :=
  match choices completion with
  | Some (c :: _) =>
    match choice_message c with
    | Some m =>
      match message_content m with
      | Some s => trim s
      | None => []
      end
    | None => []
    end
  | _ => []
  end.

(** Lines 96-132: what follows a successful read. *)
Definition answer (w : World) (st : State) (t : list event) (file : File)
    (text : jsstring) (question : jsval) : Outcome :=
  let st := unlinkSync st (path file) in
  let t := t ++ [EvUnlink (path file)] in
  let apiKey := env w "OPENAI_API_KEY" in
  if negb (truthy apiKey) then
    respond st t 500 (Error (js "Server is misconfigured: missing OpenAI API key."))
  else
    let r := completion_request text question in
    match chat_completions_create w r with
    | Some completion =>
      respond st (t ++ [EvChatCreate r]) 200 (Answer (answer_of completion))
    | None =>
      respond st (t ++ [EvChatCreate r; EvConsoleError (js "OpenAI API request failed:")])
        500 (Error (js "Failed to retrieve answer from OpenAI."))
    end.

Definition query (w : World) (st : State) (file : option File)
    (body : gmap jsstring field) : Outcome :=
  let question := prop body "question" in
  let sessionId := prop body "sessionId" in
  match file with
  | None => respond st [] 400 (Error (js "No contract file uploaded."))
  | Some file =>
    if question_required question then
      respond st [] 400 (Error (js "A question is required."))
    else if payment_required (paidSessions st) sessionId then
      respond st [] 402
        (Error (js "Payment required. Please purchase access to ask questions."))
    else
      match contractText w (disk st) file with
      | (t, Some text) => answer w st t file text question
      | (t, None) =>
        respond (unlinkSync st (path file))
          (t ++ [EvConsoleError (js "Failed to read uploaded file:");
                 EvUnlink (path file)])
          500 (Error (js "Failed to read uploaded file."))
      end
  end.

(** A multipart form as multer hands it over to the handler: the file part
    named [contract], when there is one, with the name the client gave it,
    its bytes and the path multer picks under [uploads/]; and the text
    fields, which make up [req.body].  What becomes of a form that multer
    refuses, and of a request that is not a multipart form at all and so has
    no [req.body], is in [api_query] below. *)
Record Upload := {
  upload_name : jsstring;
  upload_path : jsstring;
  upload_bytes : Buffer
}.

Record QueryRequest := {
  contract : option Upload;
  fields : gmap jsstring field
}.

(** [upload.single('contract')]: the part is written to disk before the
    handler runs, and described by [req.file]. *)
Definition uploaded (st : State) (u : Upload) : State :=
  {| stripe := stripe st; paidSessions := paidSessions st;
     disk := <[upload_path u := upload_bytes u]> (disk st) |}.

Definition file_of (u : Upload) : File :=
  {| originalname := upload_name u; path := upload_path u |}.

Definition upload_single (st : State) (r : QueryRequest) : State * option File :=
  match contract r with
  | None => (st, None)
  | Some u => (uploaded st u, Some (file_of u))
  end.

Definition post_query (w : World) (st : State) (r : QueryRequest) : Outcome :=
  let '(st1, file) := upload_single st r in
  query w st1 file (fields r).

(** ** A POST to /api/query as it arrives

    Before the handler runs, [upload.single('contract')] reads the request.
    A multipart form is parsed: a file part without a file name is skipped,
    one file part named [contract] is stored and becomes [req.file], and the
    text fields become [req.body].  Multer refuses a form that holds a file
    part under another name or a second file part, or a field over the
    limits of the parser (a name over 100 bytes, a value over 1 MiB): Express
    then answers with its own 500 page and the handler does not run.  A
    request that is not a multipart form is passed on untouched, with
    neither [req.file] nor [req.body]: line 60 destructures [undefined], the
    handler throws, and no response is sent. *)

Record FilePart := {
  fieldname : jsstring;
  filename : jsstring;
  data : Buffer
}.

Inductive HttpPost :=
  | Multipart (files : list FilePart) (texts : gmap jsstring field) (tmp : jsstring)
  | Oversized
  | NotMultipart.

Definition has_filename (p : FilePart) : bool :=
  match filename p with
  | [] => false
  | _ :: _ => true
  end.

(** The file multer accepts under [name]: [None] when it refuses the form,
    [Some None] when the form holds no file. *)
Definition single (name : jsstring) (files : list FilePart)
  : option (option FilePart) :=
  match List.filter has_filename files with
  | [] => Some None
  | [p] => if bool_decide (fieldname p = name) then Some (Some p) else None
  | _ :: _ :: _ => None
  end.

(** What the handler is given, when multer accepts the form. *)
Definition delivered (rq : HttpPost) : option QueryRequest :=
  match rq with
  | Multipart files texts tmp =>
    match single (js "contract") files with
    | Some part =>
      Some {| contract :=
                (λ p, {| upload_name := filename p; upload_path := tmp;
                         upload_bytes := data p |}) <$> part;
              fields := texts |}
    | None => None
    end
  | Oversized => None
  | NotMultipart => None
  end.

Inductive Handled :=
  | Responded (o : Outcome)
  | Refused
  | Threw.

Definition api_query (w : World) (st : State) (rq : HttpPost) : Handled :=
  match rq with
  | NotMultipart => Threw
  | Multipart _ _ _ | Oversized =>
    match delivered rq with
    | Some r => Responded (post_query w st r)
    | None => Refused
    end
  end.


(** ** POST /api/create-checkout-session

    The arguments of the provider call (line items, redirect URLs) are built
    from the environment alone and are left out of the trace. *)

(** [a || b]. *)
Definition or_else (a b : jsval) : jsval := if truthy a then a else b.

Definition create_checkout_session (w : World) (st : State) : Outcome :=
  if negb (stripe st) then
    respond st [] 500 (Error (js "Stripe is not configured on the server."))
  else
    match checkout_sessions_create w with
    | inl (url, id) => respond st [EvSessionsCreate] 200 (Checkout url id)
    | inr err =>
      let message :=
        or_else (or_else (raw_message err) (err_message err))
                (JString (js "Unknown error")) in
      respond st [EvSessionsCreate; EvConsoleError (js "Error creating checkout session:")]
        500 (ErrorDetails (js "Unable to create checkout session.") message)
    end.

(** ** GET /api/checkout-session *)

Definition checkout_session (w : World) (st : State)
    (query : gmap jsstring field) : Outcome :=
  if negb (stripe st) then
    respond st [] 500 (Error (js "Stripe is not configured on the server."))
  else
    let session_id := prop query "session_id" in
    if negb (truthy session_id) then
      respond st [] 400 (Error (js "session_id query parameter is required."))
    else
      match checkout_sessions_retrieve w session_id with
      | Some payment_status =>
        let isPaid := strict_eq_string payment_status (js "paid") in
        let st' :=
          if isPaid then
            {| stripe := stripe st;
               paidSessions := set_property (paidSessions st) session_id (JBool true);
               disk := disk st |}
          else st in
        respond st' [EvSessionsRetrieve session_id] 200 (Paid isPaid)
      | None =>
        respond st
          [EvSessionsRetrieve session_id;
           EvConsoleError (js "Error retrieving checkout session:")]
          500 (Error (js "Unable to retrieve checkout session."))
      end.

(** ** The server

    One request is handled at a time.  A handler touches [paidSessions] at a
    single point between two awaits (the lookup of line 72, the assignment of
    line 204), and every upload has a path of its own, so handling the
    requests one after the other loses no behaviour of the registry or of a
    request's temporary file.  [PostQuery] is a form that multer has handed
    over to the handler; what becomes of the other requests to the endpoint
    is in [api_query]. *)

Inductive Request :=
  | PostQuery (r : QueryRequest)
  | PostCreateCheckoutSession
  | GetCheckoutSession (query : gmap jsstring field)
  | GetOther.

Definition handle (w : World) (st : State) (rq : Request) : Outcome :=
  match rq with
  | PostQuery r => post_query w st r
  | PostCreateCheckoutSession => create_checkout_session w st
  | GetCheckoutSession q => checkout_session w st q
  | GetOther => respond st [] 200 (SendFile (js "index.html"))
  end.

Fixpoint serve (st : State) (rs : list (World * Request)) : State :=
  match rs with
  | [] => st
  | (w, rq) :: rs' => serve (final (handle w st rq)) rs'
  end.

(** The process starts with an empty registry. *)
Definition start (configured : bool) (d : gmap jsstring Buffer) : State :=
  {| stripe := configured; paidSessions := ∅; disk := d |}.

(** Classes of calls. *)
Definition is_stripe_call (e : event) : bool :=
  match e with
  | EvSessionsCreate | EvSessionsRetrieve _ => true
  | _ => false
  end.

Definition is_completion (e : event) : bool :=
  match e with
  | EvChatCreate _ => true
  | _ => false
  end.

(** ** The specification's vocabulary *)

(** A question that is missing, non-textual, or blank after trimming. *)
Definition blank_question (q : jsval) : Prop :=
  q = JUndefined ∨ (∀ s, q ≠ JString s) ∨ ∃ s, q = JString s ∧ trim s = [].

(** A code unit of a file name that is neither a separator nor a dot. *)
Definition plain (c : N) : Prop := c ≠ CHAR_FORWARD_SLASH ∧ c ≠ CHAR_DOT.

(** An extension that is [.pdf] up to the case of its letters. *)
Definition pdf_extension (name : jsstring) : bool :=
  match extname name with
  | [dot; p; d; f] =>
    (dot =? 46) && ((p =? 80) || (p =? 112)) && ((d =? 68) || (d =? 100)) &&
    ((f =? 70) || (f =? 102))
  | _ => false
  end.

(** The scan of [path.extname] before its first character. *)
Definition scan_start : ext_scan :=
  {| startDot := -1; startPart := 0; end_ := -1;
     matchedSlash := true; preDotState := 0 |}.

(** The code units of a name from position [k] on, with their positions. *)
Definition indexed_from (k : nat) (s : jsstring) : list (Z * N) :=
  imap (λ i c, (Z.of_nat (k + i), c)) s.

Definition separator (c : N) : Prop := c = CHAR_FORWARD_SLASH.

(** A file name that ends in [.pdf], in any letter case, right after a
    character that is not a path separator; separators that trail the name
    do not count. *)
Definition pdf_name (name : jsstring) : Prop :=
  ∃ front c p d f tail,
    name = front ++ [c; CHAR_DOT; p; d; f] ++ tail ∧
    c ≠ CHAR_FORWARD_SLASH ∧
    (p = 80 ∨ p = 112) ∧ (d = 68 ∨ d = 100) ∧ (f = 70 ∨ f = 102) ∧
    Forall separator tail.


(** The text of the first completion, when there is one. *)
Definition first_text (c : Completion) : option jsstring :=
  match choices c with
  | Some l =>
    match l !! 0%nat with
    | Some first =>
      match choice_message first with
      | Some m => message_content m
      | None => None
      end
    | None => None
    end
  | None => None
  end.

(** ** Sample inputs *)

Definition ascii_text (b : Buffer) : jsstring := Byte.to_N <$> b.

Definition sample_completion : Completion :=
  {| choices := Some [ {| choice_message :=
       Some {| message_content := Some (js "  Twelve months. ") |} |} ] |}.

Definition sample_world (key : bool) : World :=
  {| process_env := if key then {[ js "OPENAI_API_KEY" := js "sk-test" ]} else ∅;
     pdf := λ b, match b with [] => None | _ => Some (ascii_text b) end;
     toString_utf8 := ascii_text;
     chat_completions_create := λ _, Some sample_completion;
     checkout_sessions_create :=
       inl (JString (js "https://checkout.example/pay"), JString (js "cs_1"));
     checkout_sessions_retrieve := λ id,
       if strict_eq_string id (js "cs_1") then Some (JString (js "paid"))
       else if strict_eq_string id (js "cs_2") then Some (JString (js "unpaid"))
       else None |}.

(** A world whose PDF parser and UTF-8 decoder disagree on every buffer. *)
Definition pdf_world : World :=
  {| process_env := {[ js "OPENAI_API_KEY" := js "sk-test" ]};
     pdf := λ _, Some (js "Parsed PDF text");
     toString_utf8 := ascii_text;
     chat_completions_create := λ _, Some sample_completion;
     checkout_sessions_create :=
       inr {| raw_message := JUndefined; err_message := JUndefined |};
     checkout_sessions_retrieve := λ _, None |}.

Definition sample_part (field name : string) : FilePart :=
  {| fieldname := js field; filename := js name;
     data := [Byte.x54; Byte.x65; Byte.x72; Byte.x6d] |}.

Definition sample_upload (name : string) : Upload :=
  {| upload_name := js name;
     upload_path := js "uploads/3f2a";
     upload_bytes := [Byte.x54; Byte.x65; Byte.x72; Byte.x6d] |}.

Definition form (l : list (string * string)) : gmap jsstring field :=
  list_to_map ((λ kv, (js kv.1, FText (js kv.2))) <$> l).

Definition sample_query (name : string) (l : list (string * string)) : QueryRequest :=
  {| contract := Some (sample_upload name); fields := form l |}.

(** A configured server on which the session cs_1 has been verified. *)
Definition paid_state : State :=
  {| stripe := true; paidSessions := {[ js "cs_1" := JBool true ]}; disk := ∅ |}.

(** ** Vocabulary for the properties beyond the specification *)

(** A string that does not start with white space. *)
Definition no_leading_space (s : jsstring) : Prop :=
  match s with
  | c :: _ => is_white_space c = false
  | [] => True
  end.

(** A string made of white space only. *)
Definition all_white_space (s : jsstring) : Prop :=
  Forall (λ c, is_white_space c = true) s.

(** The statuses the query endpoint can answer with. *)
Definition query_statuses : list N := [200; 400; 402; 500].

(** ** Start-up (lines 38-43)

    [stripe] is defined exactly when STRIPE_SECRET_KEY is set to a non-empty
    string. *)
Definition boot (w : World) (d : gmap jsstring Buffer) : State :=
  start (truthy (env w "STRIPE_SECRET_KEY")) d.

(** ** The arguments of the checkout call (lines 146-176) *)

(** A number: NaN, a finite value, or an infinity. *)
Inductive jsnumber :=
  | NaN
  | Num (q : Q)
  | Infinite (negative : bool).

Definition number_truthy (n : jsnumber) : bool :=
  match n with
  | NaN => false
  | Num q => negb (Qeq_bool q 0)
  | Infinite _ => true
  end.

(** [Number(v)] for an environment variable: NaN when it is not set, and what
    the runtime's StringToNumber makes of its text when it is. *)
Definition Number (StringToNumber : jsstring → jsnumber) (v : option jsstring)
  : jsnumber :=
  match v with
  | None => NaN
  | Some s => StringToNumber s
  end.

(** [String.prototype.startsWith]. *)
Fixpoint startsWith (s prefix : jsstring) : bool :=
  match prefix, s with
  | [], _ => true
  | p :: prefix', c :: s' => (c =? p) && startsWith s' prefix'
  | _ :: _, [] => false
  end.

Inductive LineItem :=
  | PriceItem (price : jsstring) (quantity : N)
  | PriceDataItem (currency : jsstring) (product_name : jsstring)
      (unit_amount : jsnumber) (quantity : N).

Record SessionParams := {
  payment_method_types : list jsstring;
  line_items : list LineItem;
  mode : jsstring;
  success_url : jsstring;
  cancel_url : jsstring
}.

(** Line 25: [process.env.PORT || 5001], as a template literal prints it. *)
Definition PORT (w : World) : jsstring :=
  ToString (or_else (env w "PORT") (JString (js "5001"))).

(** Line 146. *)
Definition domain (w : World) : jsstring :=
  ToString (or_else (env w "DOMAIN")
                    (JString (js "http://localhost:" ++ PORT w))).

(** Lines 150-169. *)
Definition lineItems (StringToNumber : jsstring → jsnumber) (w : World)
  : list LineItem :=
  let priceId := env w "STRIPE_PRICE_ID" in
  if truthy priceId && startsWith (ToString priceId) (js "price_") then
    [PriceItem (ToString priceId) 1]
  else
    let parsed := Number StringToNumber (process_env w !! js "STRIPE_AMOUNT") in
    let amount := if number_truthy parsed then parsed else Num 1000 in
    let currency :=
      ToString (or_else (env w "STRIPE_CURRENCY") (JString (js "usd"))) in
    [PriceDataItem currency (js "Contract Analyzer Access") amount 1].

(** Lines 170-176. *)
Definition checkout_params (StringToNumber : jsstring → jsnumber) (w : World)
  : SessionParams :=
  {| payment_method_types := [js "card"];
     line_items := lineItems StringToNumber w;
     mode := js "payment";
     success_url := domain w ++ js "/?session_id={CHECKOUT_SESSION_ID}";
     cancel_url := domain w ++ js "/?canceled=true" |}.

(** ** Runs and what they verified *)

(** The run holds a verification request for the property name [k] to which
    the provider answered 'paid'. *)
Definition verified_paid (rs : list (World * Request)) (k : jsstring) : Prop :=
  ∃ w q, (w, GetCheckoutSession q) ∈ rs ∧
         truthy (prop q "session_id") = true ∧
         checkout_sessions_retrieve w (prop q "session_id") =
           Some (JString (js "paid")) ∧
         ToString (prop q "session_id") = k.

(** ** The client ([client/app.js]) *)

Module Client.

(** A file picked in the file input. *)
Record BrowserFile := {
  name : jsstring;
  bytes : Buffer
}.

(** The state of the [App] component. *)
Record App := {
  paid : bool;
  sessionId : option jsstring;
  file : option BrowserFile;
  question : jsstring;
  answer : jsstring;
  loadingAsk : bool;
  loadingPayment : bool
}.

Definition initial : App :=
  {| paid := false; sessionId := None; file := None; question := [];
     answer := []; loadingAsk := false; loadingPayment := false |}.

(** A string or [null], tested as a condition. *)
Definition present (v : option jsstring) : bool :=
  match v with
  | Some (_ :: _) => true
  | _ => false
  end.

(** axios resolves on a 2xx status and rejects on any other. *)
Definition resolves (r : Response) : bool :=
  (200 <=? status r) && (status r <? 300).

(** Members of [response.data]. *)
Definition data_paid (b : json) : bool :=
  match b with
  | Paid p => p
  | _ => false
  end.

Definition data_answer (b : json) : jsval :=
  match b with
  | Answer a => JString a
  | _ => JUndefined
  end.

Definition data_error (b : json) : jsval :=
  match b with
  | Error e | ErrorDetails e _ => JString e
  | _ => JUndefined
  end.

Definition data_url (b : json) : jsval :=
  match b with
  | Checkout url _ => url
  | _ => JUndefined
  end.

Definition setPaid (c : App) (sess : jsstring) : App :=
  {| paid := true; sessionId := Some sess; file := file c;
     question := question c; answer := answer c;
     loadingAsk := loadingAsk c; loadingPayment := loadingPayment c |}.

(** The effect run on mount, first branch: the page was opened with a
    [session_id] parameter, and [r] is what the verification request came
    back with ([None]: no response at all). *)
Definition mount_verified (sess : jsstring) (r : option Response) (c : App)
    (localStorage : gmap jsstring jsstring) : App * gmap jsstring jsstring :=
  match r with
  | Some r =>
    if resolves r && data_paid (body r) then
      (setPaid c sess,
       <[js "sessionId" := sess]> (<[js "paid" := js "true"]> localStorage))
    else (c, localStorage)
  | None => (c, localStorage)
  end.

(** Second branch: no parameter, the state is restored from localStorage. *)
Definition mount_restored (c : App) (localStorage : gmap jsstring jsstring) : App :=
  let paidFlag := localStorage !! js "paid" in
  let storedSession := localStorage !! js "sessionId" in
  match storedSession with
  | Some s =>
    if bool_decide (paidFlag = Some (js "true")) && present storedSession
    then setPaid c s else c
  | None => c
  end.

(** What [handleAsk] does before it awaits: the alert it raises, or the form
    it posts. *)
Inductive Asked :=
  | Alert (msg : jsstring)
  | Post (contract : BrowserFile) (fields : gmap jsstring field).

Definition formData (c : App) : gmap jsstring field :=
  let form := {[ js "question" := FText (trim (question c)) ]} in
  match sessionId c with
  | Some (x :: s) => <[js "sessionId" := FText (x :: s)]> form
  | _ => form
  end.

Definition asked (c : App) : Asked :=
  match file c with
  | None => Alert (js "Please choose a contract file to upload.")
  | Some f =>
    match trim (question c) with
    | [] => Alert (js "Please enter a question about the contract.")
    | _ :: _ =>
      if negb (paid c) then
        Alert (js "You must purchase access before asking questions.")
      else Post f (formData c)
    end
  end.

(** The text [handleAsk] shows for what the request came back with. *)
Definition shown (r : option Response) : jsstring :=
  match r with
  | Some r =>
    if resolves r then
      ToString (or_else (data_answer (body r)) (JString (js "No answer returned.")))
    else
      ToString (or_else (data_error (body r))
                  (JString (js "An error occurred while retrieving the answer.")))
  | None => js "An error occurred while retrieving the answer."
  end.

Definition setAnswer (c : App) (a : jsstring) : App :=
  {| paid := paid c; sessionId := sessionId c; file := file c;
     question := question c; answer := a;
     loadingAsk := loadingAsk c; loadingPayment := loadingPayment c |}.

(** [handleFileChange] and [handleQuestionChange]. *)
Definition setFile (c : App) (selected : option BrowserFile) : App :=
  {| paid := paid c; sessionId := sessionId c; file := selected;
     question := question c; answer := answer c;
     loadingAsk := loadingAsk c; loadingPayment := loadingPayment c |}.

Definition setQuestion (c : App) (value : jsstring) : App :=
  {| paid := paid c; sessionId := sessionId c; file := file c;
     question := value; answer := answer c;
     loadingAsk := loadingAsk c; loadingPayment := loadingPayment c |}.

Definition setLoadingAsk (c : App) (b : bool) : App :=
  {| paid := paid c; sessionId := sessionId c; file := file c;
     question := question c; answer := answer c;
     loadingAsk := b; loadingPayment := loadingPayment c |}.

End Client.

(** ** Client and server together

    The browser sends the form, multer stores the file part under [tmp], the
    handler answers, and the client shows the outcome. *)

Definition ask_request (f : Client.BrowserFile) (tmp : jsstring)
    (form : gmap jsstring field) : QueryRequest :=
  {| contract := Some {| upload_name := Client.name f; upload_path := tmp;
                         upload_bytes := Client.bytes f |};
     fields := form |}.

Definition handleAsk (w : World) (tmp : jsstring) (st : State) (c : Client.App)
  : State * Client.App :=
  match Client.asked c with
  | Client.Alert _ => (st, Client.setAnswer c [])
  | Client.Post f form =>
    let o := post_query w st (ask_request f tmp form) in
    (final o,
     Client.setLoadingAsk (Client.setAnswer c (Client.shown (Some (reply o)))) false)
  end.

(** Opening the page: with a [session_id] parameter the client has the
    server verify it; without one it restores its state. *)
Definition open_page (w : World) (st : State) (sess : option jsstring)
    (localStorage : gmap jsstring jsstring)
  : State * (Client.App * gmap jsstring jsstring) :=
  match sess with
  | Some (x :: s) =>
    let o := checkout_session w st {[ js "session_id" := FText (x :: s) ]} in
    (final o, Client.mount_verified (x :: s) (Some (reply o)) Client.initial localStorage)
  | _ => (st, (Client.mount_restored Client.initial localStorage, localStorage))
  end.

(** What the user does on the page once it is open. *)
Inductive ClientEvent :=
  | FileChange (selected : option Client.BrowserFile)
  | QuestionChange (value : jsstring)
  | Ask (w : World) (tmp : jsstring).

Definition client_step (st : State) (c : Client.App) (ev : ClientEvent)
  : State * Client.App :=
  match ev with
  | FileChange selected => (st, Client.setFile c selected)
  | QuestionChange value => (st, Client.setQuestion c value)
  | Ask w tmp => handleAsk w tmp st c
  end.

Fixpoint browse (st : State) (c : Client.App) (evs : list ClientEvent)
  : State * Client.App :=
  match evs with
  | [] => (st, c)
  | ev :: evs' =>
    let '(st', c') := client_step st c ev in browse st' c' evs'
  end.

(** [handlePurchase]: the URL the browser is sent to, if any. *)
Definition handlePurchase (w : World) (st : State) : option jsval :=
  let o := create_checkout_session w st in
  if Client.resolves (reply o) && truthy (Client.data_url (body (reply o)))
  then Some (Client.data_url (body (reply o))) else None.

(** A paid client about to ask its question. *)
Definition sample_file : Client.BrowserFile :=
  {| Client.name := js "lease.txt";
     Client.bytes := [Byte.x54; Byte.x65; Byte.x72; Byte.x6d] |}.

Definition sample_client : Client.App :=
  {| Client.paid := true; Client.sessionId := Some (js "cs_1");
     Client.file := Some sample_file;
     Client.question := js "  What is the term? ";
     Client.answer := []; Client.loadingAsk := false;
     Client.loadingPayment := false |}.

(** ** Sanity checks of the runtime model *)

Example extname_pdf : extname (js "lease.PDF") = js ".PDF".
Proof. reflexivity. Qed.

Example extname_dotfile : extname (js ".pdf") = [].
Proof. reflexivity. Qed.

Example extname_last : extname (js "dir.pdf/notes.v2.txt") = js ".txt".
Proof. reflexivity. Qed.

Example extname_dotdot : extname (js "..") = [].
Proof. reflexivity. Qed.

Example trim_spaces : trim (js "  what term? ") = js "what term?".
Proof. reflexivity. Qed.

Example join_comma : ToString (JArray [js "a"; js "b"]) = js "a,b".
Proof. reflexivity. Qed.

(** The lookup of line 72 goes through the prototype chain: with nothing
    recorded, the name of an inherited member passes the check. *)
Example inherited_name_passes :
  payment_required ∅ (JString (js "constructor")) = false ∧
  payment_required ∅ (JString (js "cs_9")) = true.
Proof. split; vm_compute; reflexivity. Qed.

(** ** The registry object *)

Lemma proto_inherited : bool_decide (js "__proto__" ∈ Object_prototype) = true.
Proof. vm_compute. reflexivity. Qed.

Lemma set_property_proto o k v :
  set_property o k v !! js "__proto__" = o !! js "__proto__".
Proof.
  unfold set_property. case_bool_decide as Hk; [done|].
  by rewrite lookup_insert_ne.
Qed.

Lemma set_property_dom o k v : dom o ⊆ dom (set_property o k v).
Proof.
  unfold set_property. case_bool_decide; [done|].
  rewrite dom_insert_L. set_solver.
Qed.

(** Once a lookup is truthy it stays truthy under any recording. *)
Lemma get_set_mono o k k' :
  truthy (get_property o k') = true →
  truthy (get_property (set_property o k (JBool true)) k') = true.
Proof.
  unfold set_property. case_bool_decide as Hk; [done|]. unfold get_property.
  destruct (decide (ToString k = ToString k')) as [Heq|Hne].
  - rewrite <- Heq, lookup_insert_eq. intros _. reflexivity.
  - by rewrite lookup_insert_ne.
Qed.

(** Recording makes the lookup of the recorded identifier truthy, provided
    [__proto__] was never an own property. *)
Lemma get_set_same o k :
  o !! js "__proto__" = None →
  truthy (get_property (set_property o k (JBool true)) k) = true.
Proof.
  intros Hp. unfold set_property. case_bool_decide as Hk; unfold get_property.
  - rewrite Hk, Hp, proto_inherited. done.
  - by rewrite lookup_insert_eq.
Qed.

Lemma set_property_twice o k v :
  set_property (set_property o k v) k v = set_property o k v.
Proof.
  unfold set_property. case_bool_decide; [done|]. by rewrite insert_insert_eq.
Qed.

Lemma set_property_present o k v :
  o !! ToString k = Some v → set_property o k v = o.
Proof.
  intros H. unfold set_property. case_bool_decide; [done|]. by apply insert_id.
Qed.

(** ** [path.extname] on simple names

    What the scan computes on [base.ext] when neither part holds a separator
    or a dot: the extension is the last dot and what follows it. *)

Lemma extname_scan_app a b s :
  Forall (λ ic : Z * N, plain ic.2) a →
  extname_scan (a ++ b) s = extname_scan b (extname_scan a s).
Proof.
  intros Ha. revert s. induction Ha as [|[i c] a [Hc _] Ha IH]; intros s; [done|].
  simpl in *. destruct (N.eqb_spec c CHAR_FORWARD_SLASH); [done|]. apply IH.
Qed.

Lemma extname_scan_plain cs s :
  Forall (λ ic : Z * N, plain ic.2) cs →
  end_ s ≠ (-1)%Z →
  extname_scan cs s =
  match cs with
  | [] => s
  | _ :: _ =>
    if (startDot s =? -1)%Z then s
    else {| startDot := startDot s; startPart := startPart s; end_ := end_ s;
            matchedSlash := matchedSlash s; preDotState := -1 |}
  end.
Proof.
  intros Hcs. revert s. induction Hcs as [|[i c] cs [Hs Hd] Hcs IH]; intros s He; [done|].
  simpl in *.
  destruct (N.eqb_spec c CHAR_FORWARD_SLASH); [done|].
  destruct (N.eqb_spec c CHAR_DOT); [done|].
  destruct (Z.eqb_spec (end_ s) (-1)); [done|].
  destruct (Z.eqb_spec (startDot s) (-1)) as [E|E]; simpl.
  - rewrite IH by done. destruct cs; [done|]. by rewrite E.
  - rewrite IH by done. destruct cs; [done|]. simpl.
    destruct (Z.eqb_spec (startDot s) (-1)); done.
Qed.

Lemma extname_scan_dot i cs s :
  startDot s = (-1)%Z →
  extname_scan ((i, CHAR_DOT) :: cs) s =
  extname_scan cs
    {| startDot := i; startPart := startPart s;
       end_ := if (end_ s =? -1)%Z then (i + 1)%Z else end_ s;
       matchedSlash := if (end_ s =? -1)%Z then false else matchedSlash s;
       preDotState := preDotState s |}.
Proof.
  intros H. simpl. destruct (end_ s =? -1)%Z; simpl; by rewrite H.
Qed.

Lemma plain_indexed (f : nat → Z) (l : jsstring) :
  Forall plain l → Forall (λ ic : Z * N, plain ic.2) (rev (imap (λ i c, (f i, c)) l)).
Proof.
  intros Hl. apply Forall_forall. intros [i c] Hin.
  apply list_elem_of_In, in_rev, list_elem_of_In, elem_of_lookup_imap in Hin
    as (n & y & [= -> ->] & Hy).
  simpl. eapply Forall_lookup_1 in Hl; eauto.
Qed.

Lemma extname_scan_tail (f : nat → Z) e :
  (∀ n, 0 ≤ f n)%Z → Forall plain e →
  extname_scan (rev (imap (λ i c, (f i, c)) e))
    {| startDot := -1; startPart := 0; end_ := -1;
       matchedSlash := true; preDotState := 0 |} =
  match e with
  | [] => {| startDot := -1; startPart := 0; end_ := -1;
             matchedSlash := true; preDotState := 0 |}
  | _ :: _ => {| startDot := -1; startPart := 0;
                 end_ := f (length e - 1)%nat + 1;
                 matchedSlash := false; preDotState := 0 |}
  end.
Proof.
  intros Hf He. destruct e as [|x e' _] using rev_ind; [done|].
  apply Forall_app in He as [He' Hx]. apply Forall_singleton in Hx as [Hx1 Hx2].
  rewrite imap_app, rev_app_distr. simpl.
  destruct (N.eqb_spec x CHAR_FORWARD_SLASH); [done|].
  destruct (N.eqb_spec x CHAR_DOT); [done|]. simpl.
  rewrite extname_scan_plain;
    [|by apply (plain_indexed f)|simpl; specialize (Hf (length e' + 0)%nat); lia].
  rewrite length_app. simpl.
  replace (length e' + 1 - 1)%nat with (length e' + 0)%nat by lia.
  destruct (e' ++ [x]) eqn:E; [by destruct e'|].
  by destruct (rev _).
Qed.

Lemma extname_scan_simple base e :
  base ≠ [] → Forall plain base → Forall plain e →
  extname_scan (rev (indexed (base ++ CHAR_DOT :: e)))
    {| startDot := -1; startPart := 0; end_ := -1;
       matchedSlash := true; preDotState := 0 |} =
  {| startDot := Z.of_nat (length base); startPart := 0;
     end_ := Z.of_nat (length (base ++ CHAR_DOT :: e));
     matchedSlash := false; preDotState := -1 |}.
Proof.
  intros Hne Hbase He. unfold indexed.
  rewrite imap_app, rev_app_distr. cbn [imap rev]. rewrite <- app_assoc.
  rewrite extname_scan_app by (by apply (plain_indexed (λ n, Z.of_nat (length base + S n)))).
  rewrite (extname_scan_tail (λ n, Z.of_nat (length base + S n))); [|intros; lia|done].
  assert (∃ p ps, rev (imap (λ (i : nat) (c : N), (Z.of_nat i, c)) base) = p :: ps)
    as (p & ps & HB).
  { destruct (rev _) eqn:E; [|by eauto].
    apply (f_equal (@length _)) in E. rewrite length_rev, length_imap in E.
    by destruct base. }
  pose proof (plain_indexed Z.of_nat base Hbase) as HP.
  rewrite length_app.
  destruct e as [|x e']; cbn [app]; rewrite extname_scan_dot by done;
    cbn [startDot startPart end_ matchedSlash preDotState length].
  - change (-1 =? -1)%Z with true. cbv iota.
    rewrite extname_scan_plain; [|done|simpl; lia].
    rewrite HB. cbn [startDot startPart end_ matchedSlash preDotState].
    destruct (Z.eqb_spec (Z.of_nat (length base + 0)) (-1)); [lia|]. f_equal; lia.
  - destruct (Z.eqb_spec (Z.of_nat (length base + S (S (length e') - 1)) + 1) (-1));
      [lia|].
    rewrite extname_scan_plain; [|done|simpl; lia].
    rewrite HB. cbn [startDot startPart end_ matchedSlash preDotState].
    destruct (Z.eqb_spec (Z.of_nat (length base + 0)) (-1)); [lia|]. f_equal; lia.
Qed.

Lemma extname_simple base e :
  base ≠ [] → Forall plain base → Forall plain e →
  extname (base ++ CHAR_DOT :: e) = CHAR_DOT :: e.
Proof.
  intros Hne Hbase He. unfold extname.
  rewrite extname_scan_simple by done. cbn [startDot end_ preDotState startPart].
  destruct (Z.eqb_spec (Z.of_nat (length base)) (-1)); [lia|].
  destruct (Z.eqb_spec (Z.of_nat (length (base ++ CHAR_DOT :: e))) (-1)); [lia|].
  simpl. unfold slice. rewrite Nat2Z.id, drop_app_length.
  rewrite length_app. apply take_ge. simpl. lia.
Qed.

Lemma pdf_extension_simple base p d f :
  base ≠ [] → Forall plain base →
  p = 80 ∨ p = 112 → d = 68 ∨ d = 100 → f = 70 ∨ f = 102 →
  pdf_extension (base ++ [46; p; d; f]) = true.
Proof.
  intros Hne Hbase Hp Hd Hf. unfold pdf_extension.
  change (base ++ [46; p; d; f]) with (base ++ CHAR_DOT :: [p; d; f]).
  rewrite (extname_simple base [p; d; f]); [|done|done|].
  - destruct Hp as [-> | ->], Hd as [-> | ->], Hf as [-> | ->]; reflexivity.
  - repeat constructor; unfold CHAR_FORWARD_SLASH, CHAR_DOT; lia.
Qed.

(** ** [path.extname] on every name

    The scan runs from the last code unit to the first.  It skips the
    separators that trail the name, takes the next code unit as the end of
    the last component, records the first dot it meets, and stops at the
    separator before the component.  The extension is empty unless a code
    unit of the component stands before that dot. *)

Lemma indexed_from_0 s : indexed s = indexed_from 0 s.
Proof. reflexivity. Qed.

Lemma rev_indexed_from_app k a b :
  rev (indexed_from k (a ++ b)) =
  rev (indexed_from (k + length a) b) ++ rev (indexed_from k a).
Proof.
  unfold indexed_from. rewrite imap_app, rev_app_distr. do 2 f_equal.
  apply imap_ext. intros i c _. simpl. do 2 f_equal. lia.
Qed.

Lemma Forall_rev_indexed (P : N → Prop) k l :
  Forall P l → Forall (λ ic : Z * N, P ic.2) (rev (indexed_from k l)).
Proof.
  intros Hl. apply Forall_forall. intros [i c] Hin.
  apply list_elem_of_In, in_rev, list_elem_of_In, elem_of_lookup_imap in Hin
    as (n & y & [= -> ->] & Hy).
  simpl. eapply Forall_lookup_1 in Hl; eauto.
Qed.

Lemma extname_scan_separators cs rest s :
  Forall (λ ic : Z * N, separator ic.2) cs → matchedSlash s = true →
  extname_scan (cs ++ rest) s = extname_scan rest s.
Proof.
  induction 1 as [|[i c] cs Hc _ IH]; intros Hm; [done|].
  simpl in Hc. rewrite Hc. simpl. rewrite Hm. simpl. by apply IH.
Qed.

Lemma extname_scan_stop i cs s :
  matchedSlash s = false →
  extname_scan ((i, CHAR_FORWARD_SLASH) :: cs) s =
  {| startDot := startDot s; startPart := i + 1; end_ := end_ s;
     matchedSlash := matchedSlash s; preDotState := preDotState s |}.
Proof. intros H. simpl. by rewrite H. Qed.

(** Once a code unit before the dot has been seen, the rest of the scan
    leaves the dot and the end where they are. *)
Lemma extname_scan_ext cs s :
  startDot s ≠ (-1)%Z → end_ s ≠ (-1)%Z → preDotState s ≠ 0%Z →
  startDot (extname_scan cs s) = startDot s ∧
  end_ (extname_scan cs s) = end_ s ∧
  preDotState (extname_scan cs s) ≠ 0%Z.
Proof.
  revert s. induction cs as [|[i c] cs IH]; intros s Hd He Hp; [done|].
  cbn [extname_scan].
  destruct (N.eqb_spec c CHAR_FORWARD_SLASH).
  { destruct (matchedSlash s); cbn [negb]; [by apply IH|done]. }
  destruct (Z.eqb_spec (end_ s) (-1)); [done|].
  destruct (Z.eqb_spec (startDot s) (-1)); [done|]. cbn [negb].
  destruct (N.eqb_spec c CHAR_DOT).
  - destruct (Z.eqb_spec (preDotState s) 1); cbn [negb]; [by apply IH|].
    destruct (IH {| startDot := startDot s; startPart := startPart s;
                    end_ := end_ s; matchedSlash := matchedSlash s;
                    preDotState := 1 |}) as (? & ? & ?); done.
  - destruct (IH {| startDot := startDot s; startPart := startPart s;
                    end_ := end_ s; matchedSlash := matchedSlash s;
                    preDotState := -1 |}) as (? & ? & ?); done.
Qed.

(** The scan of the trailing separators and of the run [e] before them. *)
Lemma extname_scan_run k e tail rest :
  Forall plain e → Forall separator tail →
  extname_scan (rev (indexed_from k (e ++ tail)) ++ rest) scan_start =
  extname_scan rest
    match e with
    | [] => scan_start
    | _ :: _ => {| startDot := -1; startPart := 0;
                   end_ := Z.of_nat (k + length e);
                   matchedSlash := false; preDotState := 0 |}
    end.
Proof.
  intros He Ht. rewrite rev_indexed_from_app, <- app_assoc.
  rewrite extname_scan_separators;
    [|by apply (Forall_rev_indexed separator)|done].
  rewrite extname_scan_app by (by apply (Forall_rev_indexed plain)).
  unfold indexed_from, scan_start.
  rewrite (extname_scan_tail (λ n, Z.of_nat (k + n))); [|intros; lia|done].
  destruct e as [|x e']; [done|]. do 2 f_equal. simpl. lia.
Qed.

(** What stands before the last component: nothing, or a separator. *)
Lemma extname_scan_front front s :
  front = [] ∨ (∃ front', front = front' ++ [CHAR_FORWARD_SLASH]) →
  matchedSlash s = false →
  startDot (extname_scan (rev (indexed front)) s) = startDot s ∧
  preDotState (extname_scan (rev (indexed front)) s) = preDotState s.
Proof.
  intros [->|[front' ->]] Hm; [done|].
  rewrite indexed_from_0, rev_indexed_from_app. cbn [indexed_from imap rev app].
  by rewrite extname_scan_stop.
Qed.

Lemma extname_separators name : Forall separator name → extname name = [].
Proof.
  intros H. unfold extname.
  rewrite <- (app_nil_r (rev (indexed name))).
  rewrite extname_scan_separators;
    [done|by apply (Forall_rev_indexed separator 0)|done].
Qed.

Lemma extname_without_dot front e tail :
  front = [] ∨ (∃ front', front = front' ++ [CHAR_FORWARD_SLASH]) →
  e ≠ [] → Forall plain e → Forall separator tail →
  extname (front ++ e ++ tail) = [].
Proof.
  intros Hfront Hne He Ht. unfold extname.
  rewrite indexed_from_0, rev_indexed_from_app.
  fold scan_start. rewrite extname_scan_run by done.
  destruct e as [|x e']; [done|].
  edestruct extname_scan_front as [-> _]; [done|done|done].
Qed.

Lemma extname_dot_first front e tail :
  front = [] ∨ (∃ front', front = front' ++ [CHAR_FORWARD_SLASH]) →
  Forall plain e → Forall separator tail →
  extname (front ++ CHAR_DOT :: e ++ tail) = [].
Proof.
  intros Hfront He Ht. unfold extname.
  rewrite indexed_from_0, rev_indexed_from_app.
  change (CHAR_DOT :: e ++ tail) with ([CHAR_DOT] ++ (e ++ tail)).
  rewrite rev_indexed_from_app, <- app_assoc.
  fold scan_start. rewrite extname_scan_run by done.
  cbn [indexed_from imap rev app].
  rewrite extname_scan_dot by (by destruct e).
  edestruct extname_scan_front as [_ ->];
    [done|destruct e; simpl; [done|by destruct (_ =? _)%Z]|].
  cbn [preDotState]. destruct e; cbn [preDotState scan_start];
    by rewrite !orb_true_r.
Qed.

Lemma slice_middle (a b c : jsstring) :
  slice (a ++ b ++ c) (Z.of_nat (length a)) (Z.of_nat (length a + length b)) = b.
Proof.
  unfold slice. rewrite Nat2Z.id, drop_app_length.
  replace (Z.to_nat _) with (length b) by lia.
  by rewrite take_app_length.
Qed.

(** A dot that follows a code unit of the component starts the extension. *)
Lemma extname_after_unit front c e tail :
  c ≠ CHAR_FORWARD_SLASH → Forall plain e → Forall separator tail →
  extname (front ++ c :: CHAR_DOT :: e ++ tail) = CHAR_DOT :: e ∨
  (e = [] ∧ extname (front ++ c :: CHAR_DOT :: e ++ tail) = []).
Proof.
  intros Hc He Ht.
  set (name := front ++ c :: CHAR_DOT :: e ++ tail).
  set (s := extname_scan (rev (indexed name)) scan_start).
  assert (startDot s = Z.of_nat (length front + 1) ∧
          end_ s = Z.of_nat (length front + 2 + length e) ∧
          preDotState s ≠ 0%Z) as (Hd & Hend & Hp).
  { unfold s, name.
    rewrite indexed_from_0, rev_indexed_from_app.
    change (c :: CHAR_DOT :: e ++ tail) with ([c; CHAR_DOT] ++ (e ++ tail)).
    rewrite rev_indexed_from_app, <- app_assoc.
    rewrite extname_scan_run by done.
    cbn [indexed_from imap rev app]. unfold compose.
    rewrite extname_scan_dot by (by destruct e).
    cbn [extname_scan].
    destruct (N.eqb_spec c CHAR_FORWARD_SLASH); [done|].
    set (s1 := {| startDot := _ |}).
    assert (startDot s1 = Z.of_nat (length front + 1) ∧
            end_ s1 = Z.of_nat (length front + 2 + length e) ∧
            preDotState s1 = 0%Z) as (Hd1 & He1 & Hp1).
    { unfold s1.
      destruct e; cbn [startDot startPart end_ matchedSlash preDotState
                       scan_start length];
        repeat match goal with
               | |- context [Z.eqb ?a ?b] => destruct (Z.eqb_spec a b)
               end; repeat split; lia. }
    clearbody s1.
    destruct (Z.eqb_spec (end_ s1) (-1)); [lia|].
    destruct (Z.eqb_spec (startDot s1) (-1)); [lia|].
    rewrite Hp1. cbn [Z.eqb negb].
    destruct (c =? CHAR_DOT).
    - edestruct extname_scan_ext as (-> & -> & ?); [..|done]; simpl; lia.
    - edestruct extname_scan_ext as (-> & -> & ?); [..|done]; simpl; lia. }
  unfold extname. fold scan_start. fold name. fold s.
  rewrite Hd, Hend.
  destruct (Z.eqb_spec (Z.of_nat (length front + 1)) (-1)); [lia|].
  destruct (Z.eqb_spec (Z.of_nat (length front + 2 + length e)) (-1)); [lia|].
  destruct (Z.eqb_spec (preDotState s) 0); [done|]. cbn [orb].
  assert (slice name (Z.of_nat (length front + 1))
            (Z.of_nat (length front + 2 + length e)) = CHAR_DOT :: e) as ->.
  { unfold name.
    change (front ++ c :: CHAR_DOT :: e ++ tail)
      with (front ++ [c] ++ (CHAR_DOT :: e) ++ tail).
    rewrite (app_assoc front [c]).
    replace (length front + 1)%nat with (length (front ++ [c]))
      by (rewrite length_app; simpl; lia).
    replace (length front + 2 + length e)%nat
      with (length (front ++ [c]) + length (CHAR_DOT :: e))%nat
      by (rewrite length_app; simpl; lia).
    apply slice_middle. }
  destruct (_ && _ && _) eqn:E; [|by left].
  destruct e; [by right|]. exfalso.
  apply andb_prop in E as [E _]. apply andb_prop in E as [_ E].
  apply Z.eqb_eq in E. simpl in E. lia.
Qed.

(** Every name is of one of four shapes. *)
Lemma name_shape (name : jsstring) :
  Forall separator name ∨
  (∃ front e tail,
     name = front ++ e ++ tail ∧
     (front = [] ∨ ∃ front', front = front' ++ [CHAR_FORWARD_SLASH]) ∧
     e ≠ [] ∧ Forall plain e ∧ Forall separator tail) ∨
  (∃ front e tail,
     name = front ++ CHAR_DOT :: e ++ tail ∧
     (front = [] ∨ ∃ front', front = front' ++ [CHAR_FORWARD_SLASH]) ∧
     Forall plain e ∧ Forall separator tail) ∨
  (∃ front c e tail,
     name = front ++ c :: CHAR_DOT :: e ++ tail ∧
     c ≠ CHAR_FORWARD_SLASH ∧ Forall plain e ∧ Forall separator tail).
Proof.
  assert (Hcons : ∀ (x : N) front,
    (front = [] ∨ ∃ front', front = front' ++ [CHAR_FORWARD_SLASH]) →
    front ≠ [] →
    ∃ front', x :: front = front' ++ [CHAR_FORWARD_SLASH]).
  { intros x front [->|[front' ->]] Hne; [done|]. by exists (x :: front'). }
  induction name as [|x name IH]; [by left|].
  destruct (decide (x = CHAR_FORWARD_SLASH)) as [Hs|Hs];
    [|destruct (decide (x = CHAR_DOT)) as [Hd|Hd]].
  - (* a separator in front *)
    destruct IH as [H|[(front & e & tail & -> & Hf & Hne & He & Ht)
                   |[(front & e & tail & -> & Hf & He & Ht)
                   |(front & c & e & tail & -> & Hc & He & Ht)]]].
    + left. by constructor.
    + right; left. exists (x :: front), e, tail. split; [done|].
      split; [|done]. right. destruct front as [|y front].
      * exists []. by rewrite Hs.
      * by apply Hcons.
    + right; right; left. exists (x :: front), e, tail. split; [done|].
      split; [|done]. right. destruct front as [|y front].
      * exists []. by rewrite Hs.
      * by apply Hcons.
    + right; right; right. by exists (x :: front), c, e, tail.
  - (* a dot in front *)
    destruct IH as [H|[(front & e & tail & -> & Hf & Hne & He & Ht)
                   |[(front & e & tail & -> & Hf & He & Ht)
                   |(front & c & e & tail & -> & Hc & He & Ht)]]].
    + right; right; left. exists [], [], name. rewrite Hd. by repeat split; auto.
    + destruct front as [|y front].
      * right; right; left. exists [], e, tail. rewrite Hd. by repeat split; auto.
      * right; left. exists (x :: y :: front), e, tail.
        split; [done|]. split; [right; by apply Hcons|]. by repeat split.
    + destruct front as [|y front].
      * right; right; right. exists [], x, e, tail. by repeat split; auto.
      * right; right; left. exists (x :: y :: front), e, tail.
        split; [done|]. split; [right; by apply Hcons|]. by repeat split.
    + right; right; right. by exists (x :: front), c, e, tail.
  - (* a plain code unit in front *)
    destruct IH as [H|[(front & e & tail & -> & Hf & Hne & He & Ht)
                   |[(front & e & tail & -> & Hf & He & Ht)
                   |(front & c & e & tail & -> & Hc & He & Ht)]]].
    + right; left. exists [], [x], name. repeat split; auto.
      by repeat constructor.
    + destruct front as [|y front].
      * right; left. exists [], (x :: e), tail. repeat split; auto.
        by repeat constructor.
      * right; left. exists (x :: y :: front), e, tail.
        split; [done|]. split; [right; by apply Hcons|]. by repeat split.
    + destruct front as [|y front].
      * right; right; right. exists [], x, e, tail. by repeat split; auto.
      * right; right; left. exists (x :: y :: front), e, tail.
        split; [done|]. split; [right; by apply Hcons|]. by repeat split.
    + right; right; right. by exists (x :: front), c, e, tail.
Qed.

(** The extension is empty, or it is the last dot of the last component and
    what follows it, and that dot follows a code unit of the component. *)
Lemma extname_shape name :
  extname name = [] ∨
  ∃ front c e tail,
    name = front ++ c :: CHAR_DOT :: e ++ tail ∧
    c ≠ CHAR_FORWARD_SLASH ∧ Forall plain e ∧ Forall separator tail ∧
    extname name = CHAR_DOT :: e.
Proof.
  destruct (name_shape name)
    as [H|[(front & e & tail & -> & Hf & Hne & He & Ht)
       |[(front & e & tail & -> & Hf & He & Ht)
       |(front & c & e & tail & -> & Hc & He & Ht)]]].
  - left. by apply extname_separators.
  - left. by apply extname_without_dot.
  - left. by apply extname_dot_first.
  - destruct (extname_after_unit front c e tail Hc He Ht) as [H|[_ H]].
    + right. by exists front, c, e, tail.
    + by left.
Qed.

(** Which names the handler takes for a PDF. *)
Lemma pdf_extension_name name : pdf_extension name = true ↔ pdf_name name.
Proof.
  unfold pdf_extension, pdf_name. split.
  - intros H.
    destruct (extname_shape name)
      as [E|(front & c & e & tail & Hn & Hc & He & Ht & E)];
      rewrite E in H; [done|].
    destruct e as [|p [|d [|f [|x e']]]]; try done.
    apply andb_prop in H as [H Hf]. apply andb_prop in H as [H Hd].
    apply andb_prop in H as [_ Hp].
    apply orb_prop in Hp, Hd, Hf. rewrite !N.eqb_eq in Hp, Hd, Hf.
    by exists front, c, p, d, f, tail.
  - intros (front & c & p & d & f & tail & -> & Hc & Hp & Hd & Hf & Ht).
    change (front ++ [c; CHAR_DOT; p; d; f] ++ tail)
      with (front ++ c :: CHAR_DOT :: [p; d; f] ++ tail).
    destruct (extname_after_unit front c [p; d; f] tail) as [->|[? _]];
      [done| |done| |done].
    + repeat constructor; unfold CHAR_FORWARD_SLASH, CHAR_DOT;
        destruct Hp as [-> | ->], Hd as [-> | ->], Hf as [-> | ->]; lia.
    + destruct Hp as [-> | ->], Hd as [-> | ->], Hf as [-> | ->]; reflexivity.
Qed.

Example names_and_their_extension :
  pdf_name (js "scans/Lease.PDF") ∧ pdf_name (js "a..pdf") ∧
  ¬ pdf_name (js ".pdf") ∧ ¬ pdf_name (js "scans/.pdf") ∧
  ¬ pdf_name (js "lease.pdf.txt") ∧ ¬ pdf_name (js "lease.pdf/notes").
Proof.
  rewrite <- !pdf_extension_name. vm_compute. by repeat split.
Qed.

(** ** The query handler, path by path *)

Lemma post_query_no_file w st r :
  contract r = None →
  post_query w st r = respond st [] 400 (Error (js "No contract file uploaded.")).
Proof. intros H. unfold post_query, upload_single. by rewrite H. Qed.

Lemma post_query_file w st r u :
  contract r = Some u →
  post_query w st r = query w (uploaded st u) (Some (file_of u)) (fields r).
Proof. intros H. unfold post_query, upload_single. by rewrite H. Qed.

Lemma query_question w st f b :
  question_required (prop b "question") = true →
  query w st (Some f) b = respond st [] 400 (Error (js "A question is required.")).
Proof. intros H. unfold query. by rewrite H. Qed.

Lemma query_payment w st f b :
  question_required (prop b "question") = false →
  payment_required (paidSessions st) (prop b "sessionId") = true →
  query w st (Some f) b =
  respond st [] 402
    (Error (js "Payment required. Please purchase access to ask questions.")).
Proof. intros H1 H2. unfold query. by rewrite H1, H2. Qed.

Lemma query_paid w st f b :
  question_required (prop b "question") = false →
  payment_required (paidSessions st) (prop b "sessionId") = false →
  query w st (Some f) b =
  match contractText w (disk st) f with
  | (t, Some text) => answer w st t f text (prop b "question")
  | (t, None) =>
    respond (unlinkSync st (path f))
      (t ++ [EvConsoleError (js "Failed to read uploaded file:"); EvUnlink (path f)])
      500 (Error (js "Failed to read uploaded file."))
  end.
Proof. intros H1 H2. unfold query. by rewrite H1, H2. Qed.

(** Line 65 rejects exactly the questions that are missing, non-textual or
    blank after trimming. *)
Lemma question_required_blank q : question_required q = true ↔ blank_question q.
Proof.
  unfold question_required, blank_question. split.
  - destruct q as [|b|s|l|]; simpl; intros H.
    + by left.
    + right; left; congruence.
    + right; right. exists s. split; [done|].
      destruct s as [|c s]; [done|]. simpl in H.
      apply Nat.eqb_eq in H. by apply length_zero_iff_nil.
    + right; left; congruence.
    + right; left; congruence.
  - intros [->|[H|(s & -> & H)]]; [done| |].
    + destruct q as [|b|s|l|]; simpl; try done; [by destruct b|by destruct (H s)].
    + destruct s as [|c s]; [done|]. simpl. by rewrite H.
Qed.

Lemma question_is_text v :
  question_required v = false → ∃ q, v = JString q.
Proof.
  destruct v as [|b|s|l|]; simpl; try done.
  - by destruct b.
  - by eauto.
Qed.

Lemma lower_unit_inv c l :
  l < 0x41 ∨ 0x7A < l ∨ (0x5A < l ∧ l < 0x61) → lower_unit c = l → c = l.
Proof.
  unfold lower_unit. intros Hl.
  destruct (0x41 <=? c) eqn:H1; destruct (c <=? 0x5A) eqn:H2; simpl; try done.
  apply N.leb_le in H1, H2. lia.
Qed.

Lemma lower_unit_letter c l :
  0x61 ≤ l ≤ 0x7A → lower_unit c = l ↔ c = l ∨ c = l - 0x20.
Proof.
  unfold lower_unit. intros Hl.
  destruct (0x41 <=? c) eqn:H1; destruct (c <=? 0x5A) eqn:H2; simpl;
    try apply N.leb_le in H1; try apply N.leb_le in H2;
    try apply N.leb_gt in H1; try apply N.leb_gt in H2; lia.
Qed.

(** The comparison of line 80 is the comparison of the extension with
    [.pdf] up to case. *)
Lemma pdf_extension_spec name :
  bool_decide (toLowerCase (extname name) = js ".pdf") = pdf_extension name.
Proof.
  unfold pdf_extension, toLowerCase.
  destruct (extname name) as [|a [|p [|d [|f [|x e]]]]];
    try (apply bool_decide_eq_false_2; discriminate).
  change (js ".pdf") with [46; 112; 100; 102]. simpl.
  destruct (N.eqb_spec a 46) as [->|Ha]; simpl.
  - destruct (((p =? 80) || (p =? 112)) && ((d =? 68) || (d =? 100)) &&
              ((f =? 70) || (f =? 102))) eqn:E.
    + apply bool_decide_eq_true_2.
      apply andb_prop in E as [E Ef]. apply andb_prop in E as [Ep Ed].
      apply orb_prop in Ep, Ed, Ef. rewrite !N.eqb_eq in Ep, Ed, Ef.
      assert (lower_unit p = 112) as -> by (apply lower_unit_letter; lia).
      assert (lower_unit d = 100) as -> by (apply lower_unit_letter; lia).
      assert (lower_unit f = 102) as -> by (apply lower_unit_letter; lia).
      reflexivity.
    + apply bool_decide_eq_false_2. intros H. injection H as Hp Hd Hf.
      apply lower_unit_letter in Hp, Hd, Hf; [|lia..].
      assert ((p =? 80) || (p =? 112) = true) as Ep
        by (apply orb_true_iff; rewrite !N.eqb_eq; lia).
      assert ((d =? 68) || (d =? 100) = true) as Ed
        by (apply orb_true_iff; rewrite !N.eqb_eq; lia).
      assert ((f =? 70) || (f =? 102) = true) as Ef
        by (apply orb_true_iff; rewrite !N.eqb_eq; lia).
      rewrite Ep, Ed, Ef in E. discriminate.
  - apply bool_decide_eq_false_2. intros H. injection H as H _ _ _.
    apply lower_unit_inv in H; [done|lia].
Qed.

Lemma contractText_uploaded w st u :
  contractText w (disk (uploaded st u)) (file_of u) =
  if pdf_extension (upload_name u) then
    ([EvReadFile (upload_path u); EvPdfParse (upload_bytes u)], pdf w (upload_bytes u))
  else
    ([EvReadFile (upload_path u)], Some (toString_utf8 w (upload_bytes u))).
Proof.
  unfold contractText. simpl. rewrite lookup_insert_eq.
  by rewrite pdf_extension_spec.
Qed.

Lemma post_query_paid w st r u :
  contract r = Some u →
  question_required (prop (fields r) "question") = false →
  payment_required (paidSessions st) (prop (fields r) "sessionId") = false →
  post_query w st r =
  match contractText w (disk (uploaded st u)) (file_of u) with
  | (t, Some text) =>
    answer w (uploaded st u) t (file_of u) text (prop (fields r) "question")
  | (t, None) =>
    respond (unlinkSync (uploaded st u) (upload_path u))
      (t ++ [EvConsoleError (js "Failed to read uploaded file:");
             EvUnlink (upload_path u)])
      500 (Error (js "Failed to read uploaded file."))
  end.
Proof.
  intros Hc Hq Hp. by rewrite (post_query_file _ _ _ _ Hc), query_paid.
Qed.

Lemma answer_with_key w st t f text q :
  truthy (env w "OPENAI_API_KEY") = true →
  answer w st t f text q =
  match chat_completions_create w (completion_request text q) with
  | Some completion =>
    respond (unlinkSync st (path f))
      ((t ++ [EvUnlink (path f)]) ++ [EvChatCreate (completion_request text q)])
      200 (Answer (answer_of completion))
  | None =>
    respond (unlinkSync st (path f))
      ((t ++ [EvUnlink (path f)]) ++
       [EvChatCreate (completion_request text q);
        EvConsoleError (js "OpenAI API request failed:")])
      500 (Error (js "Failed to retrieve answer from OpenAI."))
  end.
Proof. intros H. unfold answer. by rewrite H. Qed.

Lemma answer_without_key w st t f text q :
  truthy (env w "OPENAI_API_KEY") = false →
  answer w st t f text q =
  respond (unlinkSync st (path f)) (t ++ [EvUnlink (path f)]) 500
    (Error (js "Server is misconfigured: missing OpenAI API key.")).
Proof. intros H. unfold answer. by rewrite H. Qed.

Lemma answer_of_first_text completion :
  answer_of completion =
  match first_text completion with Some s => trim s | None => [] end.
Proof.
  unfold answer_of, first_text.
  destruct (choices completion) as [[|c cs]|]; simpl; try done.
  destruct (choice_message c) as [m|]; done.
Qed.

(** No path of the query handler calls the payment provider. *)
Lemma post_query_no_stripe w st r :
  Forall (λ e, is_stripe_call e = false) (trace (post_query w st r)).
Proof.
  unfold post_query, upload_single, query, answer, contractText.
  destruct (contract r) as [u|]; simpl; [|done].
  repeat (case_match; simplify_eq/=; try done);
    repeat (apply Forall_app_2 || constructor); done.
Qed.

(** The response is 402 exactly when the request passes validation and the
    check of line 72 fails. *)
Lemma post_query_402 w st r :
  status (reply (post_query w st r)) = 402 ↔
  is_Some (contract r) ∧
  question_required (prop (fields r) "question") = false ∧
  payment_required (paidSessions st) (prop (fields r) "sessionId") = true.
Proof.
  destruct (contract r) as [u|] eqn:Hc.
  - rewrite (post_query_file _ _ _ _ Hc).
    destruct (question_required (prop (fields r) "question")) eqn:Hq.
    { rewrite query_question by done. simpl. split; [done|]. intros (_ & ? & _). done. }
    destruct (payment_required (paidSessions st) (prop (fields r) "sessionId")) eqn:Hp.
    { rewrite query_payment by done. simpl. split; [|done]. intros _. eauto. }
    rewrite query_paid by done.
    split; [|intros (_ & _ & ?); done]. intros H. exfalso. revert H.
    destruct (contractText _ _ _) as [t [text|]]; simpl; [|done].
    unfold answer. repeat (case_match; simpl; try done).
  - rewrite post_query_no_file by done. simpl. split; [done|].
    intros [[? ?] _]. done.
Qed.

(** ** The server over time *)

(** What one request can do to the registry: nothing, or one recording. *)
Lemma handle_paidSessions w st rq :
  paidSessions (final (handle w st rq)) = paidSessions st ∨
  ∃ id, paidSessions (final (handle w st rq)) =
        set_property (paidSessions st) id (JBool true).
Proof.
  destruct rq as [r| |q|]; simpl.
  - left. unfold post_query, upload_single, query, answer.
    destruct (contract r) as [u|]; simpl; [|done].
    repeat (case_match; simpl; try done).
  - left. unfold create_checkout_session. repeat (case_match; simpl; try done).
  - unfold checkout_session.
    destruct (stripe st); simpl; [|by left].
    destruct (truthy (prop q "session_id")); simpl; [|by left].
    destruct (checkout_sessions_retrieve w _) as [ps|]; simpl; [|by left].
    destruct (strict_eq_string ps _); simpl; [right; eauto | by left].
  - by left.
Qed.

Lemma handle_stripe w st rq : stripe (final (handle w st rq)) = stripe st.
Proof.
  destruct rq as [r| |q|]; simpl.
  - unfold post_query, upload_single, query, answer.
    destruct (contract r) as [u|]; simpl; [|done].
    repeat (case_match; simpl; try done).
  - unfold create_checkout_session. repeat (case_match; simpl; try done).
  - unfold checkout_session. repeat (case_match; simpl; try done).
  - done.
Qed.

Lemma serve_stripe st rs : stripe (serve st rs) = stripe st.
Proof.
  revert st. induction rs as [|[w rq] rs IH]; intros st; simpl; [done|].
  by rewrite IH, handle_stripe.
Qed.

Lemma serve_proto st rs :
  paidSessions st !! js "__proto__" = None →
  paidSessions (serve st rs) !! js "__proto__" = None.
Proof.
  revert st. induction rs as [|[w rq] rs IH]; intros st H; simpl; [done|].
  apply IH. destruct (handle_paidSessions w st rq) as [->|[id ->]]; [done|].
  by rewrite set_property_proto.
Qed.

Lemma serve_dom st rs : dom (paidSessions st) ⊆ dom (paidSessions (serve st rs)).
Proof.
  revert st. induction rs as [|[w rq] rs IH]; intros st; simpl; [done|].
  etrans; [|apply IH].
  destruct (handle_paidSessions w st rq) as [->|[id ->]];
    [done|apply set_property_dom].
Qed.

Lemma serve_paid st rs id :
  truthy (get_property (paidSessions st) id) = true →
  truthy (get_property (paidSessions (serve st rs)) id) = true.
Proof.
  revert st. induction rs as [|[w rq] rs IH]; intros st H; simpl; [done|].
  apply IH. destruct (handle_paidSessions w st rq) as [->|[id' ->]]; [done|].
  by apply get_set_mono.
Qed.

Lemma checkout_session_paid w st q :
  stripe st = true →
  truthy (prop q "session_id") = true →
  checkout_sessions_retrieve w (prop q "session_id") = Some (JString (js "paid")) →
  checkout_session w st q =
  respond {| stripe := stripe st;
             paidSessions :=
               set_property (paidSessions st) (prop q "session_id") (JBool true);
             disk := disk st |}
          [EvSessionsRetrieve (prop q "session_id")] 200 (Paid true).
Proof.
  intros Hs Ht Hr. unfold checkout_session. rewrite Hs, Ht, Hr. reflexivity.
Qed.

(** ** Upload cleanup *)

(** A request rejected by the question check or by the payment check leaves
    its upload where multer wrote it. *)
Lemma upload_kept_when_rejected w st r u :
  contract r = Some u →
  question_required (prop (fields r) "question") = true ∨
  payment_required (paidSessions st) (prop (fields r) "sessionId") = true →
  disk (final (post_query w st r)) !! upload_path u = Some (upload_bytes u).
Proof.
  intros Hc H. rewrite (post_query_file _ _ _ _ Hc).
  destruct (question_required (prop (fields r) "question")) eqn:Hq.
  - rewrite query_question by done. simpl. apply lookup_insert_eq.
  - destruct H as [?|Hp]; [done|].
    rewrite query_payment by done. simpl. apply lookup_insert_eq.
Qed.

(** A request that gets past the payment check has its upload removed,
    however the handler ends. *)
Lemma upload_removed_when_paid w st r u :
  contract r = Some u →
  question_required (prop (fields r) "question") = false →
  payment_required (paidSessions st) (prop (fields r) "sessionId") = false →
  disk (final (post_query w st r)) !! upload_path u = None.
Proof.
  intros Hc Hq Hp. rewrite (post_query_paid _ _ _ _ Hc Hq Hp).
  destruct (contractText _ _ _) as [t [text|]]; simpl; [|apply lookup_delete_eq].
  unfold answer. destruct (negb _); simpl; [apply lookup_delete_eq|].
  destruct (chat_completions_create w _); simpl; apply lookup_delete_eq.
Qed.

(** C1 (upload cleanup on every exit).  The claim asks that the temporary
    file of a request is gone when the response is sent, on success and on
    every failure.  The handler unlinks the file only on the paths that come
    after the payment check: a request with an upload and a blank question is
    answered 400, a request with an upload and no session identifier is
    answered 402, and in both cases the file multer wrote is still on disk. *)
Theorem C1_upload_kept_on_rejection :
  let u := sample_upload "lease.txt" in
  let blank := sample_query "lease.txt" [("question", "   "); ("sessionId", "cs_1")] in
  let unpaid := sample_query "lease.txt" [("question", "What is the term?")] in
  let o1 := post_query (sample_world true) paid_state blank in
  let o2 := post_query (sample_world true) paid_state unpaid in
  (status (reply o1) = 400 ∧
   disk (final o1) !! upload_path u = Some (upload_bytes u)) ∧
  (status (reply o2) = 402 ∧
   disk (final o2) !! upload_path u = Some (upload_bytes u)).
Proof. vm_compute. repeat split. Qed.

(** ** Validation and the payment gate *)

(** On a form handed over by multer: no file, or a blank question, gives
    400 with no call made and the registry untouched. *)
Lemma post_query_validation (w : World) (st : State) (r : QueryRequest) :
  contract r = None ∨ blank_question (prop (fields r) "question") →
  reply (post_query w st r) =
    {| status := 400;
       body := Error (match contract r with
                      | Some _ => js "A question is required."
                      | None => js "No contract file uploaded."
                      end) |} ∧
  trace (post_query w st r) = [] ∧
  paidSessions (final (post_query w st r)) = paidSessions st.
Proof.
  intros Hbad. destruct (contract r) as [u|] eqn:Hc.
  - destruct Hbad as [?|Hq]; [done|]. apply question_required_blank in Hq.
    rewrite (post_query_file _ _ _ _ Hc), query_question by done. done.
  - by rewrite post_query_no_file.
Qed.

Lemma api_query_delivered w st rq r :
  delivered rq = Some r → api_query w st rq = Responded (post_query w st r).
Proof. intros H. destruct rq; simpl in *; [|done..]. by rewrite H. Qed.


(** A request that is not a multipart form has no body to destructure on
    line 60: the handler throws before its first check, and sends nothing. *)
Example non_multipart_post_throws :
  api_query (sample_world true) paid_state NotMultipart = Threw.
Proof. reflexivity. Qed.

(** C4, as stated, fails: a form whose only file part is under another name
    than contract, and which has no question, is refused by the upload
    middleware before the handler runs, so it is not answered 400. *)
Lemma C4_refused_form_is_not_validated :
  let rq := Multipart [sample_part "document" "lease.txt"] ∅ (js "uploads/3f2a") in
  blank_question (prop (∅ : gmap jsstring field) "question") ∧
  delivered rq = None ∧
  api_query (sample_world true) paid_state rq = Refused ∧
  ¬ ∃ o, api_query (sample_world true) paid_state rq = Responded o ∧
         status (reply o) = 400.
Proof.
  split; [by left|]. split; [reflexivity|]. split; [reflexivity|].
  intros (o & H & _). discriminate H.
Qed.

(** C4 (validation comes first), amended.  For a multipart form that the
    upload middleware accepts and hands over to the handler: when it holds
    no file, or when its question is missing, non-textual or blank after
    trimming, the handler answers 400 with the matching message, whatever
    the session identifier and the registry hold; it makes no call (no
    extraction, no completion request) and leaves the registry as it was. *)
Theorem C4_validation_rejects_first (w : World) (st : State) (rq : HttpPost)
  (r : QueryRequest)
  (Hdelivered : delivered rq = Some r)
  (Hbad : contract r = None ∨ blank_question (prop (fields r) "question")) :
  ∃ o, api_query w st rq = Responded o ∧
       reply o =
         {| status := 400;
            body := Error (match contract r with
                           | Some _ => js "A question is required."
                           | None => js "No contract file uploaded."
                           end) |} ∧
       trace o = [] ∧
       paidSessions (final o) = paidSessions st.
Proof.
  exists (post_query w st r). split; [by apply api_query_delivered|].
  by apply post_query_validation.
Qed.

Lemma C4_validation_witness :
  let rq := Multipart [sample_part "contract" "lease.txt"]
              (form [("question", "   "); ("sessionId", "cs_1")])
              (js "uploads/3f2a") in
  let r := sample_query "lease.txt" [("question", "   "); ("sessionId", "cs_1")] in
  delivered rq = Some r ∧
  (contract r = None ∨ blank_question (prop (fields r) "question")) ∧
  ∃ o, api_query (sample_world true) paid_state rq = Responded o ∧
       status (reply o) = 400 ∧ trace o = [].
Proof.
  assert (H : blank_question (JString (js "   "))).
  { right; right. exists (js "   "). split; reflexivity. }
  split; [reflexivity|]. split; [right; exact H|].
  destruct (C4_validation_rejects_first (sample_world true) paid_state
    (Multipart [sample_part "contract" "lease.txt"]
       (form [("question", "   "); ("sessionId", "cs_1")]) (js "uploads/3f2a"))
    (sample_query "lease.txt" [("question", "   "); ("sessionId", "cs_1")])
    eq_refl (or_intror H)) as (o & Ho & Hr & Ht & _).
  exists o. split; [exact Ho|]. split; [exact (f_equal status Hr)|exact Ht].
Defined.





(** C9 (the payment decision reads the identifier and the registry only).
    Two requests that reach the payment check with the same sessionId field,
    against registries with the same content, are both answered 402 or both
    let through, whatever their files, questions and other fields (a [paid]
    field included), the disk, and the world they run in. *)
Theorem C9_payment_decision_from_registry (w1 w2 : World) (st1 st2 : State)
  (r1 r2 : QueryRequest)
  (Hreg : paidSessions st1 = paidSessions st2)
  (Hsid : fields r1 !! js "sessionId" = fields r2 !! js "sessionId")
  (Hf1 : is_Some (contract r1)) (Hf2 : is_Some (contract r2))
  (Hq1 : question_required (prop (fields r1) "question") = false)
  (Hq2 : question_required (prop (fields r2) "question") = false) :
  status (reply (post_query w1 st1 r1)) = 402 ↔
  status (reply (post_query w2 st2 r2)) = 402.
Proof.
  rewrite !post_query_402. unfold prop. rewrite Hreg, Hsid. tauto.
Qed.

Lemma C9_payment_decision_witness :
  let r1 := sample_query "lease.txt"
              [("question", "What is the term?"); ("sessionId", "cs_9");
               ("paid", "true")] in
  let r2 := sample_query "other.pdf"
              [("question", "Who are the parties?"); ("sessionId", "cs_9")] in
  let st1 := start true ∅ in
  let st2 := start false (<[js "uploads/old" := []]> ∅) in
  status (reply (post_query (sample_world true) st1 r1)) = 402 ↔
  status (reply (post_query (sample_world false) st2 r2)) = 402.
Proof.
  apply C9_payment_decision_from_registry;
    first [reflexivity | by eexists | vm_compute; reflexivity].
Defined.

(** ** The paid-session registry *)

(** C3 (a verified payment is remembered).  Take the process at any point of
    its life: started with an empty registry, it has served the requests
    [before].  If GET /api/checkout-session then observes the status 'paid'
    for an identifier, it answers {paid: true}, and after any further
    requests [after] the check of line 72 lets that identifier through.  No
    request ever removes an own property of the registry, and no path of the
    query handler, the lookup included, calls the payment provider. *)
Theorem C3_paid_session_is_remembered (d : gmap jsstring Buffer)
  (before after : list (World * Request)) (w : World) (q : gmap jsstring field)
  (Hid : truthy (prop q "session_id") = true)
  (Hpaid : checkout_sessions_retrieve w (prop q "session_id") =
           Some (JString (js "paid"))) :
  let st := serve (start true d) before in
  let o := handle w st (GetCheckoutSession q) in
  let st' := serve (final o) after in
  reply o = {| status := 200; body := Paid true |} ∧
  payment_required (paidSessions st') (prop q "session_id") = false ∧
  dom (paidSessions st) ⊆ dom (paidSessions st') ∧
  (∀ w' st'' r, Forall (λ e, is_stripe_call e = false) (trace (post_query w' st'' r))).
Proof.
  simpl. rewrite checkout_session_paid by (done || by rewrite serve_stripe).
  simpl. split; [done|]. split; [|split].
  - unfold payment_required. rewrite Hid. simpl.
    rewrite serve_paid; [done|]. simpl.
    apply get_set_same, serve_proto. done.
  - etrans; [|apply serve_dom]. simpl. apply set_property_dom.
  - intros. apply post_query_no_stripe.
Qed.

Lemma C3_paid_session_witness :
  let w := sample_world true in
  let q := form [("session_id", "cs_1")] in
  let before := [(w, PostCreateCheckoutSession)] in
  let after :=
    [(w, GetCheckoutSession (form [("session_id", "cs_2")])); (w, GetOther)] in
  let st' :=
    serve (final (handle w (serve (start true ∅) before) (GetCheckoutSession q)))
          after in
  truthy (prop q "session_id") = true ∧
  checkout_sessions_retrieve w (prop q "session_id") = Some (JString (js "paid")) ∧
  payment_required (paidSessions st') (prop q "session_id") = false.
Proof.
  split; [reflexivity|]. split; [reflexivity|].
  exact (proj1 (proj2 (C3_paid_session_is_remembered ∅
    [(sample_world true, PostCreateCheckoutSession)]
    [(sample_world true, GetCheckoutSession (form [("session_id", "cs_2")]));
     (sample_world true, GetOther)]
    (sample_world true) (form [("session_id", "cs_1")])
    eq_refl eq_refl))).
Defined.

(** C8 (verification is idempotent).  Verifying the same paid identifier a
    second time leaves the registry exactly as the first verification left
    it; and when the identifier is already recorded, the first verification
    itself changes nothing. *)
Theorem C8_verification_idempotent (w1 w2 : World) (st : State)
  (q : gmap jsstring field)
  (Hstripe : stripe st = true)
  (Hid : truthy (prop q "session_id") = true)
  (Hpaid1 : checkout_sessions_retrieve w1 (prop q "session_id") =
            Some (JString (js "paid")))
  (Hpaid2 : checkout_sessions_retrieve w2 (prop q "session_id") =
            Some (JString (js "paid"))) :
  let once := final (handle w1 st (GetCheckoutSession q)) in
  let twice := final (handle w2 once (GetCheckoutSession q)) in
  paidSessions twice = paidSessions once ∧
  (paidSessions st !! ToString (prop q "session_id") = Some (JBool true) →
   paidSessions once = paidSessions st).
Proof.
  simpl. rewrite (checkout_session_paid w1) by done. simpl.
  rewrite (checkout_session_paid w2) by done. simpl.
  split; [apply set_property_twice|apply set_property_present].
Qed.

Lemma C8_verification_witness :
  let w := sample_world true in
  let q := form [("session_id", "cs_1")] in
  let once := final (handle w (start true ∅) (GetCheckoutSession q)) in
  let twice := final (handle w once (GetCheckoutSession q)) in
  stripe (start true ∅) = true ∧
  truthy (prop q "session_id") = true ∧
  checkout_sessions_retrieve w (prop q "session_id") = Some (JString (js "paid")) ∧
  paidSessions twice = paidSessions once ∧
  paidSessions once !! js "cs_1" = Some (JBool true).
Proof.
  split; [reflexivity|]. split; [reflexivity|]. split; [reflexivity|].
  split; [|reflexivity].
  exact (proj1 (C8_verification_idempotent (sample_world true) (sample_world true)
    (start true ∅) (form [("session_id", "cs_1")]) eq_refl eq_refl eq_refl eq_refl)).
Defined.

(** ** Extraction and the answer

    The rest is about one request that has passed validation and the payment
    check. *)

Section PaidRequest.

Variables (w : World) (st : State) (r : QueryRequest) (u : Upload).

Hypothesis Hfile : contract r = Some u.
Hypothesis Hquestion : question_required (prop (fields r) "question") = false.
Hypothesis Hpaid :
  payment_required (paidSessions st) (prop (fields r) "sessionId") = false.

Local Ltac paid_path :=
  cbv zeta;
  rewrite ?(post_query_paid _ _ _ _ Hfile Hquestion Hpaid);
  rewrite ?contractText_uploaded in *.

(** C5 (extraction by extension).  For a request that passes validation and
    the payment check, the text read from the upload is the PDF parse of its
    bytes when the original name ends in .pdf, in any letter case, after a
    character that is not a separator, and the UTF-8 decoding of its bytes,
    unchanged, for every other name.  A failed parse is answered 500 with no
    completion request; a text that was read is the one sent in the
    completion request. *)
Theorem C5_extraction_by_extension :
  let o := post_query w st r in
  let text := (contractText w (disk (uploaded st u)) (file_of u)).2 in
  (pdf_name (upload_name u) → text = pdf w (upload_bytes u)) ∧
  (¬ pdf_name (upload_name u) → text = Some (toString_utf8 w (upload_bytes u))) ∧
  (text = None →
   pdf_name (upload_name u) ∧
   reply o = {| status := 500; body := Error (js "Failed to read uploaded file.") |} ∧
   List.filter is_completion (trace o) = []) ∧
  (∀ t, text = Some t → truthy (env w "OPENAI_API_KEY") = true →
   List.filter is_completion (trace o) =
   [EvChatCreate (completion_request t (prop (fields r) "question"))]).
Proof.
  paid_path. pose proof (pdf_extension_name (upload_name u)) as Hname.
  destruct (pdf_extension (upload_name u)); simpl.
  - assert (pdf_name (upload_name u)) as Hpdf by by apply Hname.
    split; [done|]. split; [done|].
    destruct (pdf w (upload_bytes u)) as [t|]; simpl.
    + split; [done|]. intros t' [= <-] Hk.
      rewrite answer_with_key by done.
      destruct (chat_completions_create w _); reflexivity.
    + split; [done|]. intros; done.
  - assert (¬ pdf_name (upload_name u)) as Hpdf.
    { intros H. by apply Hname in H. }
    split; [done|]. split; [done|]. split; [done|]. intros t' [= <-] Hk.
    rewrite answer_with_key by done.
    destruct (chat_completions_create w _); reflexivity.
Qed.

(** C6 (the composed request).  When the text of the upload is read and the
    model credential is set, the handler submits one completion request:
    model gpt-4o, temperature 0.2, at most 512 output tokens, and two
    messages, the fixed system prompt and a user message made of "Contract:",
    a blank line, the text read, a blank line, and "Question: " followed by
    the question. *)
Theorem C6_composed_request (text : jsstring)
  (Hread : (contractText w (disk (uploaded st u)) (file_of u)).2 = Some text)
  (Hkey : truthy (env w "OPENAI_API_KEY") = true) :
  ∃ q, prop (fields r) "question" = JString q ∧
  List.filter is_completion (trace (post_query w st r)) =
  [EvChatCreate
     {| model := js "gpt-4o";
        messages_of :=
          [ {| role_of := system; content := systemPrompt |};
            {| role_of := user;
               content := js "Contract:" ++ [10; 10] ++ text ++ [10; 10] ++
                          js "Question: " ++ q |} ];
        temperature := 2 # 10;
        max_tokens := 512 |}].
Proof.
  destruct (question_is_text _ Hquestion) as [q Hq]. exists q. split; [done|].
  paid_path.
  destruct (pdf_extension (upload_name u)); simpl in Hread; rewrite ?Hread;
    injection Hread as <- || idtac; rewrite answer_with_key by done;
    destruct (chat_completions_create w _); rewrite Hq; reflexivity.
Qed.

(** C7 (the answer returned).  When the completion call succeeds, the
    response is 200 and its answer is the text of the first choice with the
    white space at both ends removed; when there is no choice, or the first
    choice has no message or no content, the answer is the empty string. *)
Theorem C7_answer_from_first_choice (text : jsstring) (completion : Completion)
  (Hread : (contractText w (disk (uploaded st u)) (file_of u)).2 = Some text)
  (Hkey : truthy (env w "OPENAI_API_KEY") = true)
  (Hdone : chat_completions_create w
             (completion_request text (prop (fields r) "question")) =
           Some completion) :
  reply (post_query w st r) =
  {| status := 200;
     body := Answer (match first_text completion with
                     | Some s => trim s
                     | None => []
                     end) |}.
Proof.
  revert Hdone. paid_path. intros Hdone.
  destruct (pdf_extension (upload_name u)); simpl in Hread; rewrite ?Hread;
    injection Hread as <- || idtac; rewrite answer_with_key by done;
    rewrite Hdone; simpl; by rewrite answer_of_first_text.
Qed.

(** C10 (the credential check comes after the read and the cleanup).  While
    the model credential is missing: the handler starts by reading the upload
    (and parses it when it is a PDF), it removes the temporary file, which is
    gone from the disk at the end, and it makes no completion request; when
    the text was read the response is the 500 configuration error, sent
    after the unlink. *)
Theorem C10_credential_check_after_cleanup
  (Hkey : truthy (env w "OPENAI_API_KEY") = false) :
  let o := post_query w st r in
  let extraction := contractText w (disk (uploaded st u)) (file_of u) in
  (∃ t, trace o = extraction.1 ++ t ∧ EvUnlink (upload_path u) ∈ t) ∧
  (∃ t, trace o = EvReadFile (upload_path u) :: t) ∧
  (pdf_extension (upload_name u) = true → EvPdfParse (upload_bytes u) ∈ trace o) ∧
  disk (final o) !! upload_path u = None ∧
  List.filter is_completion (trace o) = [] ∧
  (∀ text, extraction.2 = Some text →
   reply o = {| status := 500;
                body := Error (js "Server is misconfigured: missing OpenAI API key.") |} ∧
   trace o = extraction.1 ++ [EvUnlink (upload_path u)]).
Proof.
  paid_path. destruct (pdf_extension (upload_name u)); simpl.
  - destruct (pdf w (upload_bytes u)) as [text|]; simpl.
    + rewrite answer_without_key by done. simpl.
      split; [eexists; split; [reflexivity|set_solver]|].
      split; [by eexists|]. split; [set_solver|].
      split; [apply lookup_delete_eq|]. split; [done|]. by intros ? [= <-].
    + split; [eexists; split; [reflexivity|set_solver]|].
      split; [by eexists|]. split; [set_solver|].
      split; [apply lookup_delete_eq|]. split; [done|]. done.
  - rewrite answer_without_key by done. simpl.
    split; [eexists; split; [reflexivity|set_solver]|].
    split; [by eexists|]. split; [done|].
    split; [apply lookup_delete_eq|]. split; [done|]. by intros ? [= <-].
Qed.

End PaidRequest.

Lemma C5_extraction_witness :
  let w := pdf_world in
  let u := sample_upload "Lease.PdF" in
  let r := sample_query "Lease.PdF"
             [("question", "What is the term?"); ("sessionId", "cs_1")] in
  contract r = Some u ∧
  question_required (prop (fields r) "question") = false ∧
  payment_required (paidSessions paid_state) (prop (fields r) "sessionId") = false ∧
  pdf_name (upload_name u) ∧
  toString_utf8 w (upload_bytes u) = js "Term" ∧
  (contractText w (disk (uploaded paid_state u)) (file_of u)).2 =
  Some (js "Parsed PDF text").
Proof.
  assert (H : pdf_name (js "Lease.PdF")).
  { exists (js "Leas"), 101%N, 80%N, 100%N, 70%N, [].
    split; [reflexivity|]. split; [discriminate|]. repeat split; auto. }
  split; [reflexivity|]. split; [reflexivity|]. split; [reflexivity|].
  split; [exact H|]. split; [reflexivity|].
  exact (proj1 (C5_extraction_by_extension pdf_world paid_state
    (sample_query "Lease.PdF"
       [("question", "What is the term?"); ("sessionId", "cs_1")])
    (sample_upload "Lease.PdF") eq_refl eq_refl eq_refl) H).
Defined.

Lemma C6_composed_request_witness :
  let w := sample_world true in
  let u := sample_upload "lease.txt" in
  let r := sample_query "lease.txt"
             [("question", "What is the term?"); ("sessionId", "cs_1")] in
  contract r = Some u ∧
  question_required (prop (fields r) "question") = false ∧
  payment_required (paidSessions paid_state) (prop (fields r) "sessionId") = false ∧
  (contractText w (disk (uploaded paid_state u)) (file_of u)).2 = Some (js "Term") ∧
  truthy (env w "OPENAI_API_KEY") = true ∧
  ∃ q, prop (fields r) "question" = JString q ∧
  List.filter is_completion (trace (post_query w paid_state r)) =
  [EvChatCreate
     {| model := js "gpt-4o";
        messages_of :=
          [ {| role_of := system; content := systemPrompt |};
            {| role_of := user;
               content := js "Contract:" ++ [10; 10] ++ js "Term" ++ [10; 10] ++
                          js "Question: " ++ q |} ];
        temperature := 2 # 10;
        max_tokens := 512 |}].
Proof.
  split; [reflexivity|]. split; [reflexivity|]. split; [reflexivity|].
  split; [reflexivity|]. split; [reflexivity|].
  exact (C6_composed_request (sample_world true) paid_state
    (sample_query "lease.txt"
       [("question", "What is the term?"); ("sessionId", "cs_1")])
    (sample_upload "lease.txt") eq_refl eq_refl eq_refl
    (js "Term") eq_refl eq_refl).
Defined.

Lemma C7_answer_witness :
  let w := sample_world true in
  let u := sample_upload "lease.txt" in
  let r := sample_query "lease.txt"
             [("question", "What is the term?"); ("sessionId", "cs_1")] in
  contract r = Some u ∧
  question_required (prop (fields r) "question") = false ∧
  payment_required (paidSessions paid_state) (prop (fields r) "sessionId") = false ∧
  (contractText w (disk (uploaded paid_state u)) (file_of u)).2 = Some (js "Term") ∧
  truthy (env w "OPENAI_API_KEY") = true ∧
  chat_completions_create w
    (completion_request (js "Term") (prop (fields r) "question")) =
  Some sample_completion ∧
  reply (post_query w paid_state r) =
  {| status := 200; body := Answer (js "Twelve months.") |}.
Proof.
  split; [reflexivity|]. split; [reflexivity|]. split; [reflexivity|].
  split; [reflexivity|]. split; [reflexivity|]. split; [reflexivity|].
  exact (C7_answer_from_first_choice (sample_world true) paid_state
    (sample_query "lease.txt"
       [("question", "What is the term?"); ("sessionId", "cs_1")])
    (sample_upload "lease.txt") eq_refl eq_refl eq_refl
    (js "Term") sample_completion eq_refl eq_refl eq_refl).
Defined.

Lemma C10_credential_check_witness :
  let w := sample_world false in
  let u := sample_upload "lease.pdf" in
  let r := sample_query "lease.pdf"
             [("question", "What is the term?"); ("sessionId", "cs_1")] in
  contract r = Some u ∧
  question_required (prop (fields r) "question") = false ∧
  payment_required (paidSessions paid_state) (prop (fields r) "sessionId") = false ∧
  truthy (env w "OPENAI_API_KEY") = false ∧
  disk (final (post_query w paid_state r)) !! upload_path u = None ∧
  reply (post_query w paid_state r) =
  {| status := 500;
     body := Error (js "Server is misconfigured: missing OpenAI API key.") |}.
Proof.
  split; [reflexivity|]. split; [reflexivity|]. split; [reflexivity|].
  split; [reflexivity|].
  pose proof (C10_credential_check_after_cleanup (sample_world false) paid_state
    (sample_query "lease.pdf"
       [("question", "What is the term?"); ("sessionId", "cs_1")])
    (sample_upload "lease.pdf") eq_refl eq_refl eq_refl eq_refl)
    as (_ & _ & _ & Hgone & _ & Hreply).
  split; [exact Hgone|].
  exact (proj1 (Hreply (ascii_text (upload_bytes (sample_upload "lease.pdf"))) eq_refl)).
Defined.

(** * Beyond the specification

    Properties read off the code: the runtime functions it relies on, the
    remaining paths of the three handlers, the arguments of the checkout call,
    and the client working against the server. *)

(** ** [String.prototype.trim] *)

Lemma trimStart_split s :
  ∃ pre, s = pre ++ trimStart s ∧ all_white_space pre.
Proof.
  induction s as [|c s (pre & Hs & Hpre)]; simpl.
  - exists []. split; [done|constructor].
  - destruct (is_white_space c) eqn:Hc.
    + exists (c :: pre). split; [simpl; congruence|by constructor].
    + exists []. split; [done|constructor].
Qed.

Lemma trimStart_no_leading_space s : no_leading_space (trimStart s).
Proof.
  induction s as [|c s IH]; simpl; [done|].
  destruct (is_white_space c) eqn:Hc; [done|]. simpl. done.
Qed.

Lemma trimStart_fixed s : no_leading_space s → trimStart s = s.
Proof. destruct s as [|c s]; simpl; [done|]. by intros ->. Qed.

Lemma trimStart_nil s : trimStart s = [] ↔ all_white_space s.
Proof.
  split.
  - intros H. destruct (trimStart_split s) as (pre & Hs & Hpre).
    rewrite H, app_nil_r in Hs. by subst.
  - induction 1 as [|c s Hc _ IH]; simpl; [done|]. by rewrite Hc.
Qed.

Lemma trimEnd_split s :
  ∃ post, s = trimEnd s ++ post ∧ all_white_space post.
Proof.
  destruct (trimStart_split (rev s)) as (pre & Hs & Hpre).
  exists (rev pre). split.
  - unfold trimEnd. rewrite <- rev_app_distr, <- Hs. by rewrite rev_involutive.
  - by apply Forall_rev.
Qed.

Lemma trimEnd_no_leading_space s :
  no_leading_space s → no_leading_space (trimEnd s).
Proof.
  intros Hs. destruct (trimEnd_split s) as (post & Heq & Hpost).
  destruct (trimEnd s) as [|c t] eqn:E; [done|].
  rewrite Heq in Hs. simpl in *. done.
Qed.

Lemma trimEnd_nil s : no_leading_space s → trimEnd s = [] → s = [].
Proof.
  intros Hs H. destruct (trimEnd_split s) as (post & Heq & Hpost).
  rewrite H in Heq. simpl in Heq. subst post.
  destruct s as [|c s]; [done|]. simpl in Hs.
  apply Forall_cons in Hpost as [Hc _]. congruence.
Qed.

Lemma trim_nil s : trim s = [] ↔ all_white_space s.
Proof.
  unfold trim. split.
  - intros H. apply trimStart_nil, trimEnd_nil; [apply trimStart_no_leading_space|done].
  - intros H. apply trimStart_nil in H. by rewrite H.
Qed.

Lemma trim_idempotent s : trim (trim s) = trim s.
Proof.
  assert (no_leading_space (trim s)) as H1.
  { apply trimEnd_no_leading_space, trimStart_no_leading_space. }
  unfold trim at 1. rewrite (trimStart_fixed _ H1).
  unfold trimEnd at 1, trim at 1, trimEnd at 1.
  rewrite rev_involutive, trimStart_fixed by apply trimStart_no_leading_space.
  reflexivity.
Qed.

(** X1 (a question is rejected exactly when it is blank).  Line 65 rejects a
    textual question if and only if every one of its code units is white
    space (the empty question included); a question with one other unit
    anywhere passes. *)
Theorem X1_question_rejected_iff_white_space (s : jsstring) :
  question_required (JString s) = true ↔ all_white_space s.
Proof.
  rewrite <- trim_nil. unfold question_required. destruct s as [|c s]; [done|].
  simpl. rewrite Nat.eqb_eq. apply length_zero_iff_nil.
Qed.

(** ** POST /api/query: the remaining paths *)

Local Ltac query_paths r :=
  unfold post_query, upload_single, query, answer, contractText;
  destruct (contract r) as [?u|] eqn:?Hc; simpl;
  repeat (case_match; simplify_eq/=).

Lemma post_query_status w st r :
  status (reply (post_query w st r)) ∈ query_statuses.
Proof. unfold query_statuses. query_paths r; set_solver. Qed.

Lemma post_query_200 w st r :
  status (reply (post_query w st r)) = 200 ↔
  ∃ rq completion, EvChatCreate rq ∈ trace (post_query w st r) ∧
                   chat_completions_create w rq = Some completion.
Proof.
  query_paths r; (split; [intros Hst; try done|intros (rq0 & cpl0 & Hin & Hrq)]).
  all: try (do 2 eexists; split; [|eassumption]; set_solver).
  all: try done.
  all: repeat (apply elem_of_cons in Hin as [Hin|Hin]; simplify_eq/=).
  all: try (by apply elem_of_nil in Hin).
Qed.

Lemma post_query_bodies w st r :
  (status (reply (post_query w st r)) = 200 →
   ∃ a, body (reply (post_query w st r)) = Answer a) ∧
  (status (reply (post_query w st r)) ≠ 200 →
   ∃ msg, body (reply (post_query w st r)) = Error msg ∧ msg ≠ []).
Proof. query_paths r; (split; [intros Hst|intros Hst]); try done; by eexists. Qed.

Lemma post_query_one_completion w st r :
  (length (List.filter is_completion (trace (post_query w st r))) ≤ 1)%nat.
Proof. query_paths r; simpl; lia. Qed.

(** X2 (what the endpoint can answer).  The status of a response is 200, 400,
    402 or 500.  It is 200 exactly when the handler made a completion request
    that resolved, and then the body is an answer; every other response
    carries a non-empty error message.  No request leads to more than one
    completion request. *)
Theorem X2_query_responses (w : World) (st : State) (r : QueryRequest) :
  let o := post_query w st r in
  status (reply o) ∈ query_statuses ∧
  (status (reply o) = 200 ↔
   ∃ rq completion, EvChatCreate rq ∈ trace o ∧
                    chat_completions_create w rq = Some completion) ∧
  (status (reply o) = 200 → ∃ a, body (reply o) = Answer a) ∧
  (status (reply o) ≠ 200 → ∃ msg, body (reply o) = Error msg ∧ msg ≠ []) ∧
  (length (List.filter is_completion (trace o)) ≤ 1)%nat.
Proof.
  cbv zeta. split; [apply post_query_status|].
  split; [apply post_query_200|].
  split; [apply post_query_bodies|].
  split; [apply post_query_bodies|apply post_query_one_completion].
Qed.

(** The completion requests of a run of the handler. *)
Lemma post_query_completions w st r :
  List.filter is_completion (trace (post_query w st r)) =
  match contract r with
  | Some u =>
    if question_required (prop (fields r) "question") then []
    else if payment_required (paidSessions st) (prop (fields r) "sessionId") then []
    else
      match (contractText w (disk (uploaded st u)) (file_of u)).2 with
      | Some text =>
        if truthy (env w "OPENAI_API_KEY")
        then [EvChatCreate (completion_request text (prop (fields r) "question"))]
        else []
      | None => []
      end
  | None => []
  end.
Proof.
  destruct (contract r) as [u|] eqn:Hc; [|by rewrite post_query_no_file].
  rewrite (post_query_file _ _ _ _ Hc).
  destruct (question_required (prop (fields r) "question")) eqn:Hq.
  { by rewrite query_question. }
  destruct (payment_required (paidSessions st) (prop (fields r) "sessionId")) eqn:Hp.
  { by rewrite query_payment. }
  rewrite query_paid, contractText_uploaded by done.
  destruct (pdf_extension (upload_name u)); simpl;
    [destruct (pdf w (upload_bytes u)); simpl; [|done]|];
    (destruct (truthy (env w "OPENAI_API_KEY")) eqn:Hk;
     [rewrite answer_with_key by done; by destruct (chat_completions_create w _)
     |by rewrite answer_without_key]).
Qed.

(** X3 (no completion request without the checks).  If the handler makes a
    completion request, then the request carried a file and a non-blank
    textual question, its session identifier passed the check of line 72,
    the text of the upload was read, and the model credential is set; the
    request made is the one composed from that text and that question. *)
Theorem X3_completion_only_after_checks (w : World) (st : State)
  (r : QueryRequest) (rq : ChatRequest)
  (Hcall : EvChatCreate rq ∈ trace (post_query w st r)) :
  ∃ u text,
    contract r = Some u ∧
    question_required (prop (fields r) "question") = false ∧
    payment_required (paidSessions st) (prop (fields r) "sessionId") = false ∧
    (contractText w (disk (uploaded st u)) (file_of u)).2 = Some text ∧
    truthy (env w "OPENAI_API_KEY") = true ∧
    rq = completion_request text (prop (fields r) "question").
Proof.
  assert (In (EvChatCreate rq)
             (List.filter is_completion (trace (post_query w st r)))) as Hin.
  { apply filter_In. split; [by apply list_elem_of_In|done]. }
  rewrite post_query_completions in Hin.
  destruct (contract r) as [u|] eqn:Hc; [|done].
  destruct (question_required _) eqn:Hq; [done|].
  destruct (payment_required _ _) eqn:Hp; [done|].
  destruct (contractText w _ _).2 as [text|] eqn:Hx; [|done].
  destruct (truthy (env w "OPENAI_API_KEY")) eqn:Hk; [|done].
  destruct Hin as [[= <-]|[]]. by exists u, text.
Qed.

Lemma X3_completion_witness :
  let r := sample_query "lease.txt"
             [("question", "What is the term?"); ("sessionId", "cs_1")] in
  let rq := completion_request (js "Term") (JString (js "What is the term?")) in
  EvChatCreate rq ∈ trace (post_query (sample_world true) paid_state r) ∧
  ∃ u text,
    contract r = Some u ∧
    question_required (prop (fields r) "question") = false ∧
    payment_required (paidSessions paid_state) (prop (fields r) "sessionId") = false ∧
    (contractText (sample_world true) (disk (uploaded paid_state u)) (file_of u)).2 =
      Some text ∧
    truthy (env (sample_world true) "OPENAI_API_KEY") = true ∧
    rq = completion_request text (prop (fields r) "question").
Proof.
  assert (H : EvChatCreate
                (completion_request (js "Term") (JString (js "What is the term?")))
              ∈ trace (post_query (sample_world true) paid_state
                         (sample_query "lease.txt"
                            [("question", "What is the term?");
                             ("sessionId", "cs_1")]))).
  { vm_compute. do 2 apply list_elem_of_further. apply list_elem_of_here. }
  split; [exact H|].
  exact (X3_completion_only_after_checks (sample_world true) paid_state _ _ H).
Defined.

(** X4 (what the query handler leaves alone).  Whatever the request and
    however it ends, the handler changes neither the registry nor the Stripe
    client, and a file on disk other than the request's own upload is left
    as it was. *)
Theorem X4_query_frame (w : World) (st : State) (r : QueryRequest) (p : jsstring)
  (Hother : ∀ u, contract r = Some u → p ≠ upload_path u) :
  let o := post_query w st r in
  paidSessions (final o) = paidSessions st ∧
  stripe (final o) = stripe st ∧
  disk (final o) !! p = disk st !! p.
Proof.
  cbv zeta. destruct (contract r) as [u|] eqn:Hc.
  - specialize (Hother u eq_refl).
    unfold post_query, upload_single, query, answer. rewrite Hc.
    repeat (case_match; simpl); repeat split;
      by rewrite ?lookup_delete_ne, ?lookup_insert_ne.
  - by rewrite post_query_no_file.
Qed.

Lemma X4_query_frame_witness :
  let st := {| stripe := true; paidSessions := {[ js "cs_1" := JBool true ]};
               disk := {[ js "uploads/old" := [Byte.x41] ]} |} in
  let r := sample_query "lease.txt"
             [("question", "What is the term?"); ("sessionId", "cs_1")] in
  (∀ u, contract r = Some u → js "uploads/old" ≠ upload_path u) ∧
  disk (final (post_query (sample_world true) st r)) !! js "uploads/old" =
  Some [Byte.x41].
Proof.
  assert (H : ∀ u, contract (sample_query "lease.txt"
               [("question", "What is the term?"); ("sessionId", "cs_1")]) = Some u →
              js "uploads/old" ≠ upload_path u).
  { intros u [= <-]. discriminate. }
  split; [exact H|].
  exact (proj2 (proj2 (X4_query_frame (sample_world true)
    {| stripe := true; paidSessions := {[ js "cs_1" := JBool true ]};
       disk := {[ js "uploads/old" := [Byte.x41] ]} |} _ _ H))).
Defined.

(** X5 (the upload is removed once the payment check is passed).  For a
    request that passes validation and the payment check, the temporary file
    is gone from the disk when the handler ends, on each of its four exits:
    unreadable upload, missing credential, failed completion request, and
    answer. *)
Theorem X5_upload_removed_after_payment_check (w : World) (st : State)
  (r : QueryRequest) (u : Upload)
  (Hfile : contract r = Some u)
  (Hquestion : question_required (prop (fields r) "question") = false)
  (Hpaid : payment_required (paidSessions st) (prop (fields r) "sessionId") = false) :
  disk (final (post_query w st r)) !! upload_path u = None ∧
  EvUnlink (upload_path u) ∈ trace (post_query w st r).
Proof.
  split; [by apply upload_removed_when_paid|].
  rewrite (post_query_paid _ _ _ _ Hfile Hquestion Hpaid).
  destruct (contractText _ _ _) as [t [text|]]; simpl; [|set_solver].
  unfold answer. repeat (case_match; simpl); set_solver.
Qed.

Lemma X5_upload_removed_witness :
  let r := sample_query "lease.pdf"
             [("question", "What is the term?"); ("sessionId", "cs_1")] in
  let u := sample_upload "lease.pdf" in
  contract r = Some u ∧
  question_required (prop (fields r) "question") = false ∧
  payment_required (paidSessions paid_state) (prop (fields r) "sessionId") = false ∧
  disk (final (post_query (sample_world true) paid_state r)) !! upload_path u = None.
Proof.
  split; [reflexivity|]. split; [reflexivity|]. split; [reflexivity|].
  exact (proj1 (X5_upload_removed_after_payment_check (sample_world true) paid_state
    (sample_query "lease.pdf"
       [("question", "What is the term?"); ("sessionId", "cs_1")])
    (sample_upload "lease.pdf") eq_refl eq_refl eq_refl)).
Defined.

(** X6 (a failed completion request).  When the completion request of a
    checked request rejects, the response is 500 with the message 'Failed to
    retrieve answer from OpenAI.'; the request was made once and is not
    retried, the failure is logged, and the registry is unchanged. *)
Theorem X6_completion_failure (w : World) (st : State) (r : QueryRequest)
  (u : Upload) (text : jsstring)
  (Hfile : contract r = Some u)
  (Hquestion : question_required (prop (fields r) "question") = false)
  (Hpaid : payment_required (paidSessions st) (prop (fields r) "sessionId") = false)
  (Hread : (contractText w (disk (uploaded st u)) (file_of u)).2 = Some text)
  (Hkey : truthy (env w "OPENAI_API_KEY") = true)
  (Hfail : chat_completions_create w
             (completion_request text (prop (fields r) "question")) = None) :
  let o := post_query w st r in
  reply o = {| status := 500;
               body := Error (js "Failed to retrieve answer from OpenAI.") |} ∧
  List.filter is_completion (trace o) =
    [EvChatCreate (completion_request text (prop (fields r) "question"))] ∧
  last (trace o) = Some (EvConsoleError (js "OpenAI API request failed:")) ∧
  paidSessions (final o) = paidSessions st.
Proof.
  cbv zeta. rewrite post_query_completions, Hfile, Hquestion, Hpaid, Hread, Hkey.
  rewrite (post_query_paid _ _ _ _ Hfile Hquestion Hpaid).
  destruct (contractText _ _ _) as [t [text'|]]; simpl in *; [|done].
  injection Hread as ->. rewrite answer_with_key, Hfail by done. simpl.
  repeat split. by rewrite !last_app.
Qed.

Lemma X6_completion_failure_witness :
  let w := {| process_env := {[ js "OPENAI_API_KEY" := js "sk-test" ]};
              pdf := λ _, None;
              toString_utf8 := ascii_text;
              chat_completions_create := λ _, None;
              checkout_sessions_create :=
                inr {| raw_message := JUndefined; err_message := JUndefined |};
              checkout_sessions_retrieve := λ _, None |} in
  let r := sample_query "lease.txt"
             [("question", "What is the term?"); ("sessionId", "cs_1")] in
  let u := sample_upload "lease.txt" in
  contract r = Some u ∧
  question_required (prop (fields r) "question") = false ∧
  payment_required (paidSessions paid_state) (prop (fields r) "sessionId") = false ∧
  (contractText w (disk (uploaded paid_state u)) (file_of u)).2 = Some (js "Term") ∧
  truthy (env w "OPENAI_API_KEY") = true ∧
  chat_completions_create w
    (completion_request (js "Term") (prop (fields r) "question")) = None ∧
  reply (post_query w paid_state r) =
  {| status := 500; body := Error (js "Failed to retrieve answer from OpenAI.") |}.
Proof.
  split; [reflexivity|]. split; [reflexivity|]. split; [reflexivity|].
  split; [reflexivity|]. split; [reflexivity|]. split; [reflexivity|].
  exact (proj1 (X6_completion_failure
    {| process_env := {[ js "OPENAI_API_KEY" := js "sk-test" ]};
       pdf := λ _, None;
       toString_utf8 := ascii_text;
       chat_completions_create := λ _, None;
       checkout_sessions_create :=
         inr {| raw_message := JUndefined; err_message := JUndefined |};
       checkout_sessions_retrieve := λ _, None |}
    paid_state
    (sample_query "lease.txt"
       [("question", "What is the term?"); ("sessionId", "cs_1")])
    (sample_upload "lease.txt") (js "Term")
    eq_refl eq_refl eq_refl eq_refl eq_refl eq_refl)).
Defined.

(** X7 (an upload that cannot be read).  When the temporary file is not on
    disk at the time the handler reads it, the response is 500 with the
    message 'Failed to read uploaded file.': the read is attempted, nothing
    is parsed even for a PDF name, no completion request is made, the
    failure is logged, the unlink is attempted, and the state is left as it
    was. *)
Theorem X7_unreadable_upload (w : World) (st : State) (f : File)
  (b : gmap jsstring field)
  (Hquestion : question_required (prop b "question") = false)
  (Hpaid : payment_required (paidSessions st) (prop b "sessionId") = false)
  (Hgone : disk st !! path f = None) :
  let o := query w st (Some f) b in
  reply o = {| status := 500; body := Error (js "Failed to read uploaded file.") |} ∧
  trace o = [EvReadFile (path f);
             EvConsoleError (js "Failed to read uploaded file:");
             EvUnlink (path f)] ∧
  final o = st.
Proof.
  cbv zeta. rewrite query_paid by done. unfold contractText. rewrite Hgone. simpl.
  repeat split. unfold unlinkSync. rewrite delete_id by done. by destruct st.
Qed.

Lemma X7_unreadable_upload_witness :
  let f := {| originalname := js "lease.pdf"; path := js "uploads/3f2a" |} in
  let b := form [("question", "What is the term?"); ("sessionId", "cs_1")] in
  question_required (prop b "question") = false ∧
  payment_required (paidSessions paid_state) (prop b "sessionId") = false ∧
  disk paid_state !! path f = None ∧
  final (query (sample_world true) paid_state (Some f) b) = paid_state.
Proof.
  split; [reflexivity|]. split; [reflexivity|]. split; [reflexivity|].
  exact (proj2 (proj2 (X7_unreadable_upload (sample_world true) paid_state
    {| originalname := js "lease.pdf"; path := js "uploads/3f2a" |}
    (form [("question", "What is the term?"); ("sessionId", "cs_1")])
    eq_refl eq_refl eq_refl))).
Defined.

(** ** The lookup through the prototype chain *)

(** Every own property of the registry of a running server is truthy. *)
Lemma serve_truthy st rs :
  (∀ k v, paidSessions st !! k = Some v → truthy v = true) →
  ∀ k v, paidSessions (serve st rs) !! k = Some v → truthy v = true.
Proof.
  revert st. induction rs as [|[w rq] rs IH]; intros st H; simpl; [done|].
  apply IH. destruct (handle_paidSessions w st rq) as [->|[id ->]]; [done|].
  intros k v. unfold set_property. case_bool_decide; [apply H|].
  destruct (decide (ToString id = k)) as [<-|Hne].
  - rewrite lookup_insert_eq. by intros [= <-].
  - rewrite lookup_insert_ne by done. apply H.
Qed.

Lemma inherited_name_not_empty name : name ∈ Object_prototype → name ≠ [].
Proof.
  unfold Object_prototype. intros H ->.
  repeat (apply elem_of_cons in H as [H|H]; [discriminate|]).
  by apply elem_of_nil in H.
Qed.

(** A checked request starts with the read of its upload. *)
Lemma post_query_reads w st r u :
  contract r = Some u →
  question_required (prop (fields r) "question") = false →
  payment_required (paidSessions st) (prop (fields r) "sessionId") = false →
  ∃ t, trace (post_query w st r) = EvReadFile (upload_path u) :: t.
Proof.
  intros Hc Hq Hp. rewrite (post_query_paid _ _ _ _ Hc Hq Hp), contractText_uploaded.
  destruct (pdf_extension (upload_name u)); simpl;
    [destruct (pdf w (upload_bytes u)); simpl|];
    unfold answer; repeat (case_match; simpl); by eexists.
Qed.

(** X8 (inherited names pass the payment check).  On a server started with
    an empty registry, after any requests, a session identifier that is the
    name of a member of Object.prototype (constructor, toString, __proto__
    and the like) passes the check of line 72 although no payment was ever
    verified for it: a request that carries it with a file and a question is
    not answered 402 and goes on to the extraction. *)
Theorem X8_inherited_name_passes_payment_check (configured : bool)
  (d : gmap jsstring Buffer) (rs : list (World * Request)) (w : World)
  (r : QueryRequest) (u : Upload) (name : jsstring)
  (Hname : name ∈ Object_prototype)
  (Hsid : fields r !! js "sessionId" = Some (FText name))
  (Hfile : contract r = Some u)
  (Hquestion : question_required (prop (fields r) "question") = false) :
  let st := serve (start configured d) rs in
  payment_required (paidSessions st) (prop (fields r) "sessionId") = false ∧
  status (reply (post_query w st r)) ≠ 402 ∧
  EvReadFile (upload_path u) ∈ trace (post_query w st r).
Proof.
  cbv zeta.
  assert (payment_required (paidSessions (serve (start configured d) rs))
            (prop (fields r) "sessionId") = false) as Hp.
  { unfold payment_required, prop. rewrite Hsid. simpl.
    pose proof (inherited_name_not_empty _ Hname) as Hne.
    destruct name as [|c name]; [done|]. simpl.
    unfold get_property. simpl.
    destruct (paidSessions _ !! (c :: name)) as [v|] eqn:E.
    - assert (truthy v = true) as ->; [|done].
      eapply (serve_truthy (start configured d) rs); [|exact E].
      intros k v' H. simpl in H. by rewrite lookup_empty in H.
    - by rewrite bool_decide_eq_true_2. }
  split; [done|]. split.
  - intros H. apply post_query_402 in H as (_ & _ & H). congruence.
  - destruct (post_query_reads w _ r u Hfile Hquestion Hp) as [t ->].
    apply list_elem_of_here.
Qed.

Lemma X8_inherited_name_witness :
  let r := sample_query "lease.txt"
             [("question", "What is the term?"); ("sessionId", "constructor")] in
  let u := sample_upload "lease.txt" in
  js "constructor" ∈ Object_prototype ∧
  fields r !! js "sessionId" = Some (FText (js "constructor")) ∧
  contract r = Some u ∧
  question_required (prop (fields r) "question") = false ∧
  status (reply (post_query (sample_world true) (serve (start true ∅) []) r)) ≠ 402.
Proof.
  assert (H : js "constructor" ∈ Object_prototype).
  { vm_compute. apply list_elem_of_here. }
  split; [exact H|]. split; [reflexivity|]. split; [reflexivity|].
  split; [reflexivity|].
  exact (proj1 (proj2 (X8_inherited_name_passes_payment_check true ∅ []
    (sample_world true)
    (sample_query "lease.txt"
       [("question", "What is the term?"); ("sessionId", "constructor")])
    (sample_upload "lease.txt") (js "constructor") H eq_refl eq_refl eq_refl))).
Defined.

(** ** File names and the choice of the decoder *)

Lemma extname_plain name : Forall plain name → extname name = [].
Proof.
  intros H. unfold extname, indexed.
  rewrite (extname_scan_tail Z.of_nat) by (intros; lia || done).
  by destruct name.
Qed.

Lemma extname_leading_dot e : Forall plain e → extname (CHAR_DOT :: e) = [].
Proof.
  intros H. unfold extname, indexed. cbn [imap rev].
  rewrite extname_scan_app by (by apply (plain_indexed (λ n, Z.of_nat (S n)))).
  rewrite (extname_scan_tail (λ n, Z.of_nat (S n))); [|intros; lia|done].
  destruct e as [|x e]; rewrite extname_scan_dot by done; reflexivity.
Qed.

(** X9 (which uploads are parsed as PDF).  For an upload named base.ext,
    where the base is not empty and neither part holds a separator or a dot,
    the text is the PDF parse of the bytes when ext is pdf in any letter
    case, and the UTF-8 decoding of the bytes for every other ext (docx and
    the empty ext included). *)
Theorem X9_decoder_for_simple_names (w : World) (d : gmap jsstring Buffer)
  (f : File) (base e : jsstring) (buffer : Buffer)
  (Hname : originalname f = base ++ CHAR_DOT :: e)
  (Hbase : base ≠ [])
  (Hplain_base : Forall plain base)
  (Hplain_ext : Forall plain e)
  (Hdisk : d !! path f = Some buffer) :
  (contractText w d f).2 =
  if bool_decide (toLowerCase e = js "pdf") then pdf w buffer
  else Some (toString_utf8 w buffer).
Proof.
  unfold contractText. rewrite Hdisk, Hname, extname_simple by done.
  change (toLowerCase (CHAR_DOT :: e)) with (CHAR_DOT :: toLowerCase e).
  change (js ".pdf") with (CHAR_DOT :: js "pdf").
  destruct (decide (toLowerCase e = js "pdf")) as [Heq|Hne].
  - rewrite Heq, !bool_decide_eq_true_2 by done. done.
  - rewrite !bool_decide_eq_false_2; [done|done|]. by intros [= ?].
Qed.

Lemma X9_decoder_witness :
  let f := {| originalname := js "Lease.PDF"; path := js "uploads/3f2a" |} in
  let d : gmap jsstring Buffer := {[ js "uploads/3f2a" := [Byte.x54] ]} in
  originalname f = js "Lease" ++ CHAR_DOT :: js "PDF" ∧
  js "Lease" ≠ [] ∧
  Forall plain (js "Lease") ∧
  Forall plain (js "PDF") ∧
  d !! path f = Some [Byte.x54] ∧
  (contractText (sample_world true) d f).2 = pdf (sample_world true) [Byte.x54].
Proof.
  assert (H1 : Forall plain (js "Lease")).
  { repeat constructor; discriminate. }
  assert (H2 : Forall plain (js "PDF")).
  { repeat constructor; discriminate. }
  split; [reflexivity|]. split; [discriminate|]. split; [exact H1|].
  split; [exact H2|]. split; [reflexivity|].
  exact (X9_decoder_for_simple_names (sample_world true)
    {[ js "uploads/3f2a" := [Byte.x54] ]}
    {| originalname := js "Lease.PDF"; path := js "uploads/3f2a" |}
    (js "Lease") (js "PDF") [Byte.x54] eq_refl
    (λ H : js "Lease" = [], eq_ind (js "Lease")
       (λ l, match l with [] => False | _ :: _ => True end) I [] H)
    H1 H2 eq_refl).
Defined.

(** X10 (names without an extension are read as text).  An upload whose name
    holds no dot, or whose only dot is its first character (a file named
    .pdf, say), has no extension: its bytes are decoded as UTF-8 and the PDF
    parser is not called. *)
Theorem X10_no_extension_is_text (w : World) (d : gmap jsstring Buffer)
  (f : File) (buffer : Buffer)
  (Hname : Forall plain (originalname f) ∨
           ∃ e, originalname f = CHAR_DOT :: e ∧ Forall plain e)
  (Hdisk : d !! path f = Some buffer) :
  contractText w d f = ([EvReadFile (path f)], Some (toString_utf8 w buffer)).
Proof.
  unfold contractText. rewrite Hdisk.
  assert (extname (originalname f) = []) as ->.
  { destruct Hname as [H|(e & -> & H)];
      [by apply extname_plain|by apply extname_leading_dot]. }
  reflexivity.
Qed.

Lemma X10_no_extension_witness :
  let f := {| originalname := js ".pdf"; path := js "uploads/3f2a" |} in
  let d : gmap jsstring Buffer := {[ js "uploads/3f2a" := [Byte.x54] ]} in
  (Forall plain (originalname f) ∨
   ∃ e, originalname f = CHAR_DOT :: e ∧ Forall plain e) ∧
  d !! path f = Some [Byte.x54] ∧
  contractText (sample_world true) d f =
  ([EvReadFile (js "uploads/3f2a")], Some (js "T")).
Proof.
  assert (H : Forall plain (originalname {| originalname := js ".pdf";
                                            path := js "uploads/3f2a" |}) ∨
              ∃ e, originalname {| originalname := js ".pdf";
                                   path := js "uploads/3f2a" |} = CHAR_DOT :: e ∧
                   Forall plain e).
  { right. exists (js "pdf"). split; [reflexivity|]. repeat constructor; discriminate. }
  split; [exact H|]. split; [reflexivity|].
  exact (X10_no_extension_is_text (sample_world true)
    {[ js "uploads/3f2a" := [Byte.x54] ]}
    {| originalname := js ".pdf"; path := js "uploads/3f2a" |} [Byte.x54] H eq_refl).
Defined.

(** ** GET /api/checkout-session: the remaining paths *)

Lemma strict_eq_string_true v s : strict_eq_string v s = true ↔ v = JString s.
Proof.
  destruct v as [|b|s'|l|]; simpl; try (split; [done|discriminate]).
  rewrite bool_decide_eq_true. split; [by intros ->|by intros [= ->]].
Qed.

(** X11 (a session that is not paid is not recorded).  When the provider
    answers with any payment status other than 'paid' (unpaid,
    no_payment_required, a missing status), the response is 200 {paid:
    false}, the provider was called once, and the state of the server is
    left exactly as it was. *)
Theorem X11_unpaid_session_not_recorded (w : World) (st : State)
  (q : gmap jsstring field) (payment_status : jsval)
  (Hstripe : stripe st = true)
  (Hid : truthy (prop q "session_id") = true)
  (Hretrieved : checkout_sessions_retrieve w (prop q "session_id") =
                Some payment_status)
  (Hunpaid : payment_status ≠ JString (js "paid")) :
  let o := checkout_session w st q in
  reply o = {| status := 200; body := Paid false |} ∧
  trace o = [EvSessionsRetrieve (prop q "session_id")] ∧
  final o = st.
Proof.
  cbv zeta. unfold checkout_session. rewrite Hstripe, Hid, Hretrieved. simpl.
  destruct (strict_eq_string payment_status (js "paid")) eqn:E; [|done].
  by apply strict_eq_string_true in E.
Qed.

Lemma X11_unpaid_session_witness :
  let q := form [("session_id", "cs_2")] in
  stripe paid_state = true ∧
  truthy (prop q "session_id") = true ∧
  checkout_sessions_retrieve (sample_world true) (prop q "session_id") =
    Some (JString (js "unpaid")) ∧
  JString (js "unpaid") ≠ JString (js "paid") ∧
  final (checkout_session (sample_world true) paid_state q) = paid_state.
Proof.
  assert (H : JString (js "unpaid") ≠ JString (js "paid")) by discriminate.
  split; [reflexivity|]. split; [reflexivity|]. split; [reflexivity|].
  split; [exact H|].
  exact (proj2 (proj2 (X11_unpaid_session_not_recorded (sample_world true) paid_state
    (form [("session_id", "cs_2")]) (JString (js "unpaid"))
    eq_refl eq_refl eq_refl H))).
Defined.

(** X12 (when the verification endpoint calls the provider, and what it
    changes).  The provider is called exactly when Stripe is configured and
    the session_id parameter is not empty, and then once.  The state of the
    server changes only with a 200 {paid: true} response; the files on disk
    never change.  Without configuration the answer is 500, without the
    parameter 400, and on a provider error 500. *)
Theorem X12_verification_paths (w : World) (st : State) (q : gmap jsstring field) :
  let o := checkout_session w st q in
  let id := prop q "session_id" in
  (List.filter is_stripe_call (trace o) =
   if stripe st && truthy id then [EvSessionsRetrieve id] else []) ∧
  (reply o ≠ {| status := 200; body := Paid true |} → final o = st) ∧
  disk (final o) = disk st ∧
  (stripe st = false →
   reply o = {| status := 500;
                body := Error (js "Stripe is not configured on the server.") |}) ∧
  (stripe st = true → truthy id = false →
   reply o = {| status := 400;
                body := Error (js "session_id query parameter is required.") |}) ∧
  (stripe st = true → truthy id = true → checkout_sessions_retrieve w id = None →
   reply o = {| status := 500;
                body := Error (js "Unable to retrieve checkout session.") |}).
Proof.
  cbv zeta. unfold checkout_session.
  destruct (stripe st); simpl; [|done].
  destruct (truthy (prop q "session_id")); simpl; [|done].
  destruct (checkout_sessions_retrieve w _) as [ps|]; simpl; [|done].
  destruct (strict_eq_string ps _); simpl; done.
Qed.

(** ** The registry over a run *)

Lemma post_query_registry w st r :
  paidSessions (final (post_query w st r)) = paidSessions st.
Proof.
  unfold post_query, upload_single, query, answer.
  destruct (contract r); simpl; by repeat (case_match; simpl).
Qed.

(** One request records an identifier only by a verification that observed
    'paid' on a configured server. *)
Lemma handle_records w st rq :
  paidSessions (final (handle w st rq)) = paidSessions st ∨
  ∃ q, rq = GetCheckoutSession q ∧
       stripe st = true ∧
       truthy (prop q "session_id") = true ∧
       checkout_sessions_retrieve w (prop q "session_id") =
         Some (JString (js "paid")) ∧
       paidSessions (final (handle w st rq)) =
         set_property (paidSessions st) (prop q "session_id") (JBool true).
Proof.
  destruct rq as [r| |q|].
  - left. apply post_query_registry.
  - left. simpl. unfold create_checkout_session. by repeat (case_match; simpl).
  - simpl. unfold checkout_session.
    destruct (stripe st) eqn:Hs; simpl; [|by left].
    destruct (truthy (prop q "session_id")) eqn:Ht; simpl; [|by left].
    destruct (checkout_sessions_retrieve w _) as [ps|] eqn:Hr; simpl; [|by left].
    destruct (strict_eq_string ps _) eqn:E; simpl; [|by left].
    apply strict_eq_string_true in E as ->. right. by exists q.
  - by left.
Qed.

Lemma verified_paid_mono rs rs' k :
  verified_paid rs k → verified_paid (rs ++ rs') k.
Proof.
  intros (w & q & Hin & H). exists w, q. split; [|done].
  apply elem_of_app. by left.
Qed.

Lemma serve_verified st seen rs :
  (∀ k v, paidSessions st !! k = Some v →
          v = JBool true ∧ k ≠ js "__proto__" ∧ stripe st = true ∧
          verified_paid seen k) →
  ∀ k v, paidSessions (serve st rs) !! k = Some v →
         v = JBool true ∧ k ≠ js "__proto__" ∧ stripe st = true ∧
         verified_paid (seen ++ rs) k.
Proof.
  revert st seen. induction rs as [|[w rq] rs IH]; intros st seen Inv k v Hk.
  - rewrite app_nil_r. by apply Inv.
  - simpl in Hk. rewrite cons_middle, app_assoc.
    rewrite <- (handle_stripe w st rq).
    apply (IH (final (handle w st rq)) (seen ++ [(w, rq)])); [|done].
    clear k v Hk. intros k v Hk. rewrite handle_stripe.
    destruct (handle_records w st rq)
      as [Heq|(q & -> & Hs & Ht & Hr & Heq)]; rewrite Heq in Hk.
    + destruct (Inv k v Hk) as (? & ? & ? & ?).
      repeat split; try done. by apply verified_paid_mono.
    + unfold set_property in Hk. case_bool_decide as Hproto.
      { destruct (Inv k v Hk) as (? & ? & ? & ?).
        repeat split; try done. by apply verified_paid_mono. }
      destruct (decide (ToString (prop q "session_id") = k)) as [<-|Hne].
      * rewrite lookup_insert_eq in Hk. injection Hk as <-.
        repeat split; try done. exists w, q. split; [|done].
        apply elem_of_app. right. apply list_elem_of_here.
      * rewrite lookup_insert_ne in Hk by done.
        destruct (Inv k v Hk) as (? & ? & ? & ?).
        repeat split; try done. by apply verified_paid_mono.
Qed.

(** X13 (every recorded identifier was verified as paid).  On a server
    started with an empty registry, after any requests, every own property
    of the registry has the value true, is not named __proto__, and is the
    name of a session_id for which a verification request of the run got the
    status 'paid' from the provider; and the server has Stripe configured. *)
Theorem X13_recorded_means_verified (configured : bool) (d : gmap jsstring Buffer)
  (rs : list (World * Request)) (k : jsstring) (v : jsval)
  (Hown : paidSessions (serve (start configured d) rs) !! k = Some v) :
  v = JBool true ∧ k ≠ js "__proto__" ∧ configured = true ∧ verified_paid rs k.
Proof.
  apply (serve_verified (start configured d) [] rs); [|done].
  intros k' v' H. simpl in H. by rewrite lookup_empty in H.
Qed.

Lemma X13_recorded_witness :
  let rs := [(sample_world true, GetCheckoutSession (form [("session_id", "cs_1")]))] in
  paidSessions (serve (start true ∅) rs) !! js "cs_1" = Some (JBool true) ∧
  verified_paid rs (js "cs_1").
Proof.
  split; [reflexivity|].
  exact (proj2 (proj2 (proj2 (X13_recorded_means_verified true ∅
    [(sample_world true, GetCheckoutSession (form [("session_id", "cs_1")]))]
    (js "cs_1") (JBool true) eq_refl)))).
Defined.

Lemma unconfigured_records_nothing d rs k v :
  paidSessions (serve (start false d) rs) !! k = Some v → False.
Proof.
  intros H. apply (serve_verified (start false d) [] rs) in H as (_ & _ & ? & _);
    [done|].
  intros k' v' H'. simpl in H'. by rewrite lookup_empty in H'.
Qed.

(** X14 (a server without a Stripe key).  When STRIPE_SECRET_KEY is not set
    (or is empty) at start-up, then after any requests: the registry is
    still empty; both checkout endpoints answer 500 'Stripe is not configured
    on the server.' without calling the provider; and the only session
    identifiers that pass the check of line 72 are the names of members of
    Object.prototype. *)
Theorem X14_server_without_stripe_key (w0 : World) (d : gmap jsstring Buffer)
  (rs : list (World * Request))
  (Hkey : truthy (env w0 "STRIPE_SECRET_KEY") = false) :
  let st := serve (boot w0 d) rs in
  paidSessions st = ∅ ∧
  (∀ w q, checkout_session w st q =
          respond st [] 500 (Error (js "Stripe is not configured on the server."))) ∧
  (∀ w, create_checkout_session w st =
        respond st [] 500 (Error (js "Stripe is not configured on the server."))) ∧
  (∀ sessionId, payment_required (paidSessions st) sessionId = false →
                ToString sessionId ∈ Object_prototype).
Proof.
  cbv zeta. unfold boot. rewrite Hkey.
  assert (paidSessions (serve (start false d) rs) = ∅) as Hreg.
  { apply map_eq. intros k. rewrite lookup_empty.
    destruct (paidSessions (serve (start false d) rs) !! k) as [v|] eqn:E; [|done].
    by destruct (unconfigured_records_nothing d rs k v E). }
  assert (stripe (serve (start false d) rs) = false) as Hs by apply serve_stripe.
  split; [done|]. split; [|split].
  - intros w q. unfold checkout_session. by rewrite Hs.
  - intros w. unfold create_checkout_session. by rewrite Hs.
  - intros sid. rewrite Hreg. unfold payment_required, get_property.
    rewrite lookup_empty. destruct (truthy sid); simpl; [|done].
    case_bool_decide; done.
Qed.

Lemma X14_server_without_stripe_key_witness :
  let rs := [(sample_world true, GetCheckoutSession (form [("session_id", "cs_1")]))] in
  truthy (env (sample_world true) "STRIPE_SECRET_KEY") = false ∧
  paidSessions (serve (boot (sample_world true) ∅) rs) = ∅.
Proof.
  split; [reflexivity|].
  exact (proj1 (X14_server_without_stripe_key (sample_world true) ∅
    [(sample_world true, GetCheckoutSession (form [("session_id", "cs_1")]))]
    eq_refl)).
Defined.

(** ** POST /api/create-checkout-session *)

Lemma or_else_truthy a b : truthy b = true → truthy (or_else a b) = true.
Proof. unfold or_else. by destruct (truthy a) eqn:E. Qed.

(** X15 (what creating a checkout session does).  The handler never changes
    the state of the server.  It calls the provider exactly when Stripe is
    configured, and then once.  It answers 200 with the URL and identifier
    the provider returned, or 500; the 'details' of a 500 for a rejected
    creation are never empty or undefined: the provider's raw message, else
    the error's message, else 'Unknown error'. *)
Theorem X15_create_checkout_session_paths (w : World) (st : State) :
  let o := create_checkout_session w st in
  final o = st ∧
  (List.filter is_stripe_call (trace o) =
   if stripe st then [EvSessionsCreate] else []) ∧
  (status (reply o) = 200 ∨ status (reply o) = 500) ∧
  (status (reply o) = 200 ↔
   stripe st = true ∧ ∃ url id, checkout_sessions_create w = inl (url, id) ∧
                                body (reply o) = Checkout url id) ∧
  (∀ e details, body (reply o) = ErrorDetails e details → truthy details = true).
Proof.
  cbv zeta. unfold create_checkout_session.
  destruct (stripe st); simpl.
  - destruct (checkout_sessions_create w) as [[url id]|err]; simpl.
    + repeat split; eauto. by intros.
    + repeat split; eauto; try done.
      * by intros (_ & ? & ? & ? & _).
      * intros e details [= _ <-]. by apply or_else_truthy.
  - repeat split; eauto; try done. by intros (? & _).
Qed.

(** ** The arguments of the checkout call *)

Lemma startsWith_app s prefix : startsWith s prefix = true ↔ ∃ t, s = prefix ++ t.
Proof.
  revert s. induction prefix as [|p prefix IH]; intros s.
  - split; [intros _; by exists s|by destruct s].
  - destruct s as [|c s]; simpl.
    + split; [done|]. by intros [t ?].
    + rewrite andb_true_iff, N.eqb_eq, IH. split.
      * intros (-> & t & ->). by exists t.
      * intros (t & [= -> ->]). eauto.
Qed.

(** X16 (the line items of a checkout).  Whatever the environment holds and
    however the runtime parses numbers, the checkout has exactly one line
    item, of quantity 1.  It is a reference to a price only when
    STRIPE_PRICE_ID is set to a text that starts with price_, and then to
    that very text; otherwise it is an inline price named 'Contract Analyzer
    Access', whose currency is never empty and whose amount is never zero
    and never NaN. *)
Theorem X16_line_items (StringToNumber : jsstring → jsnumber) (w : World) :
  ∃ item, lineItems StringToNumber w = [item] ∧
  match item with
  | PriceItem price quantity =>
    quantity = 1 ∧ process_env w !! js "STRIPE_PRICE_ID" = Some price ∧
    ∃ rest, price = js "price_" ++ rest
  | PriceDataItem currency product_name unit_amount quantity =>
    quantity = 1 ∧ product_name = js "Contract Analyzer Access" ∧
    currency ≠ [] ∧ number_truthy unit_amount = true ∧
    (∀ price, process_env w !! js "STRIPE_PRICE_ID" = Some price →
              startsWith price (js "price_") = false)
  end.
Proof.
  unfold lineItems, env.
  destruct (process_env w !! js "STRIPE_PRICE_ID") as [price|] eqn:Hprice.
  - destruct (startsWith price (js "price_")) eqn:Hpre.
    + pose proof Hpre as Hpre'. apply startsWith_app in Hpre' as [t ->].
      cbn [ToString]. rewrite Hpre. simpl.
      eexists. split; [done|]. split; [done|]. split; [done|]. by exists t.
    + cbn [ToString]. rewrite Hpre, andb_false_r. 
      eexists. split; [done|].
      split; [done|]. split; [done|]. split; [|split].
      * unfold or_else. destruct (process_env w !! js "STRIPE_CURRENCY") as [[|c cur]|]; done.
      * destruct (number_truthy (Number _ _)) eqn:E; done.
      * by intros ? [= <-].
  - cbn [truthy andb]. eexists. split; [done|]. split; [done|]. split; [done|]. split; [|split].
    + unfold or_else. destruct (process_env w !! js "STRIPE_CURRENCY") as [[|c cur]|]; done.
    + destruct (number_truthy (Number _ _)) eqn:E; done.
    + by intros.
Qed.

(** X17 (the defaults of a checkout).  When STRIPE_PRICE_ID is not set, or
    does not start with price_, and STRIPE_AMOUNT is not set, or parses to
    NaN or zero, the item is an inline price of 1000 minor units; its
    currency is usd when STRIPE_CURRENCY is not set or empty.  When DOMAIN is
    not set or empty the redirect URLs point to http://localhost: followed by
    PORT, or by 5001 when PORT is not set or empty. *)
Theorem X17_checkout_defaults (StringToNumber : jsstring → jsnumber) (w : World)
  (Hprice : ∀ price, process_env w !! js "STRIPE_PRICE_ID" = Some price →
                     startsWith price (js "price_") = false)
  (Hamount : ∀ text, process_env w !! js "STRIPE_AMOUNT" = Some text →
                     number_truthy (StringToNumber text) = false)
  (Hdomain : truthy (env w "DOMAIN") = false) :
  let p := checkout_params StringToNumber w in
  let port := match process_env w !! js "PORT" with
              | Some (c :: s) => c :: s
              | _ => js "5001"
              end in
  (∃ currency,
     line_items p = [PriceDataItem currency (js "Contract Analyzer Access")
                       (Num 1000) 1] ∧
     (truthy (env w "STRIPE_CURRENCY") = false → currency = js "usd")) ∧
  success_url p = js "http://localhost:" ++ port ++
                  js "/?session_id={CHECKOUT_SESSION_ID}" ∧
  cancel_url p = js "http://localhost:" ++ port ++ js "/?canceled=true" ∧
  mode p = js "payment" ∧
  payment_method_types p = [js "card"].
Proof.
  cbv zeta. unfold checkout_params, domain, PORT, or_else. rewrite Hdomain. simpl.
  split; [|split; [|split]].
  - unfold lineItems, env in *.
    assert (truthy
              match process_env w !! js "STRIPE_PRICE_ID" with
              | Some s => JString s | None => JUndefined end &&
            startsWith
              (ToString match process_env w !! js "STRIPE_PRICE_ID" with
                        | Some s => JString s | None => JUndefined end)
              (js "price_") = false) as ->.
    { destruct (process_env w !! js "STRIPE_PRICE_ID") as [price|]; [|done].
      simpl. rewrite (Hprice price eq_refl). apply andb_false_r. }
    assert (number_truthy
              (Number StringToNumber (process_env w !! js "STRIPE_AMOUNT")) = false)
      as ->.
    { destruct (process_env w !! js "STRIPE_AMOUNT") as [text|]; [|done].
      simpl. by apply Hamount. }
    eexists. split; [done|]. unfold or_else. by intros ->.
  - unfold env. destruct (process_env w !! js "PORT") as [[|c s]|]; simpl;
      by rewrite <- ?app_assoc.
  - unfold env. destruct (process_env w !! js "PORT") as [[|c s]|]; simpl;
      by rewrite <- ?app_assoc.
  - done.
Qed.

Lemma X17_checkout_defaults_witness :
  let S2N : jsstring → jsnumber := λ _, NaN in
  let w := sample_world true in
  (∀ price, process_env w !! js "STRIPE_PRICE_ID" = Some price →
            startsWith price (js "price_") = false) ∧
  (∀ text, process_env w !! js "STRIPE_AMOUNT" = Some text →
           number_truthy (S2N text) = false) ∧
  truthy (env w "DOMAIN") = false ∧
  success_url (checkout_params S2N w) =
  js "http://localhost:5001/?session_id={CHECKOUT_SESSION_ID}".
Proof.
  assert (H1 : ∀ price,
             process_env (sample_world true) !! js "STRIPE_PRICE_ID" = Some price →
             startsWith price (js "price_") = false).
  { intros price H. discriminate H. }
  assert (H2 : ∀ text,
             process_env (sample_world true) !! js "STRIPE_AMOUNT" = Some text →
             number_truthy ((λ _, NaN) text) = false).
  { intros text H. discriminate H. }
  split; [exact H1|]. split; [exact H2|]. split; [reflexivity|].
  exact (proj1 (proj2 (X17_checkout_defaults (λ _, NaN) (sample_world true)
    H1 H2 eq_refl))).
Defined.

(** ** The client against the server *)

Lemma question_required_trimmed s :
  trim s ≠ [] → question_required (JString (trim s)) = false.
Proof.
  intros H. unfold question_required. rewrite trim_idempotent.
  destruct (trim s) as [|c t] eqn:E; [done|]. reflexivity.
Qed.

Lemma post_query_400 w st r :
  status (reply (post_query w st r)) = 400 ↔
  contract r = None ∨ question_required (prop (fields r) "question") = true.
Proof.
  destruct (contract r) as [u|] eqn:Hc.
  - rewrite (post_query_file _ _ _ _ Hc).
    destruct (question_required (prop (fields r) "question")) eqn:Hq.
    { rewrite query_question by done. simpl. split; eauto. }
    split; [|by intros [?|?]]. intros H. exfalso. revert H.
    destruct (payment_required (paidSessions st) (prop (fields r) "sessionId")) eqn:Hp.
    { by rewrite query_payment. }
    rewrite query_paid by done.
    destruct (contractText _ _ _) as [t [text|]]; simpl; [|done].
    unfold answer. repeat (case_match; simpl; try done).
  - rewrite post_query_no_file by done. simpl. split; eauto.
Qed.

Lemma formData_question c :
  prop (Client.formData c) "question" = JString (trim (Client.question c)).
Proof.
  unfold prop, Client.formData.
  destruct (Client.sessionId c) as [[|x s]|];
    rewrite ?lookup_insert_ne by discriminate; by rewrite lookup_singleton_eq.
Qed.

Lemma formData_sessionId c :
  prop (Client.formData c) "sessionId" =
  match Client.sessionId c with
  | Some (x :: s) => JString (x :: s)
  | _ => JUndefined
  end.
Proof.
  unfold prop, Client.formData.
  destruct (Client.sessionId c) as [[|x s]|];
    rewrite ?lookup_insert_eq, ?lookup_singleton_ne by discriminate; done.
Qed.

Lemma asked_post c f form' :
  Client.asked c = Client.Post f form' →
  Client.file c = Some f ∧ trim (Client.question c) ≠ [] ∧
  Client.paid c = true ∧ form' = Client.formData c.
Proof.
  unfold Client.asked. destruct (Client.file c) as [f'|]; [|done].
  destruct (trim (Client.question c)) as [|x s] eqn:E; [done|].
  destruct (Client.paid c); simpl; [|done]. by intros [= -> <-].
Qed.

(** X18 (what the client sends passes the server's validation).  Whenever
    handleAsk posts a form, the form holds the trimmed question, which the
    server's check of line 65 accepts, and the chosen file: the server never
    answers such a request with 400, and it answers 402 exactly when the
    check of line 72 fails on the session identifier the client holds. *)
Theorem X18_client_request_is_valid (c : Client.App) (f : Client.BrowserFile)
  (form' : gmap jsstring field) (w : World) (tmp : jsstring) (st : State)
  (Hposted : Client.asked c = Client.Post f form') :
  let o := post_query w st (ask_request f tmp form') in
  prop form' "question" = JString (trim (Client.question c)) ∧
  status (reply o) ≠ 400 ∧
  (status (reply o) = 402 ↔
   payment_required (paidSessions st) (prop form' "sessionId") = true).
Proof.
  cbv zeta. apply asked_post in Hposted as (Hf & Hq & Hp & ->).
  assert (question_required (prop (Client.formData c) "question") = false) as Hv.
  { rewrite formData_question. by apply question_required_trimmed. }
  split; [apply formData_question|]. split.
  - intros H. apply post_query_400 in H as [H|H]; simpl in H; congruence.
  - rewrite post_query_402. simpl. split; [by intros (_ & _ & ?)|eauto].
Qed.

Lemma X18_client_request_witness :
  let form' := Client.formData sample_client in
  Client.asked sample_client = Client.Post sample_file form' ∧
  status (reply (post_query (sample_world true) paid_state
                   (ask_request sample_file (js "uploads/3f2a") form'))) ≠ 400.
Proof.
  split; [reflexivity|].
  exact (proj1 (proj2 (X18_client_request_is_valid sample_client sample_file
    (Client.formData sample_client) (sample_world true) (js "uploads/3f2a")
    paid_state eq_refl))).
Defined.

Lemma client_step_session st c ev :
  Client.paid (client_step st c ev).2 = Client.paid c ∧
  Client.sessionId (client_step st c ev).2 = Client.sessionId c.
Proof.
  destruct ev as [sel|v|w tmp]; simpl; try done.
  unfold handleAsk. by destruct (Client.asked c).
Qed.

Lemma browse_session st c evs :
  Client.paid (browse st c evs).2 = Client.paid c ∧
  Client.sessionId (browse st c evs).2 = Client.sessionId c.
Proof.
  revert st c. induction evs as [|ev evs IH]; intros st c; simpl; [done|].
  pose proof (client_step_session st c ev) as [Hp Hs].
  destruct (client_step st c ev) as [st' c']. simpl in *.
  destruct (IH st' c') as [-> ->]. done.
Qed.

Lemma open_page_session w st sess ls :
  Client.paid (open_page w st sess ls).2.1 = true →
  Client.present (Client.sessionId (open_page w st sess ls).2.1) = true.
Proof.
  unfold open_page. destruct sess as [[|x s]|]; simpl.
  - unfold Client.mount_restored. destruct (ls !! js "sessionId") as [s|]; [|done].
    destruct (bool_decide _ && Client.present (Some s)) eqn:E; [|done].
    simpl. intros _. by apply andb_prop in E as [_ ?].
  - destruct (Client.resolves _ && Client.data_paid _); done.
  - unfold Client.mount_restored. destruct (ls !! js "sessionId") as [s|]; [|done].
    destruct (bool_decide _ && Client.present (Some s)) eqn:E; [|done].
    simpl. intros _. by apply andb_prop in E as [_ ?].
Qed.

(** X19 (a paid client always holds a session identifier).  However the page
    was opened (returning from the checkout or restoring the stored state)
    and whatever the user did since, if the client considers itself paid
    then it holds a non-empty session identifier, and every form it posts
    carries that identifier in its sessionId field. *)
Theorem X19_paid_client_holds_session (w : World) (st : State)
  (sess : option jsstring) (ls : gmap jsstring jsstring) (evs : list ClientEvent)
  (Hpaid : Client.paid
             (browse (open_page w st sess ls).1 (open_page w st sess ls).2.1 evs).2 =
           true) :
  let c := (browse (open_page w st sess ls).1 (open_page w st sess ls).2.1 evs).2 in
  ∃ s, Client.sessionId c = Some s ∧ s ≠ [] ∧
       Client.formData c !! js "sessionId" = Some (FText s).
Proof.
  cbv zeta.
  pose proof (browse_session (open_page w st sess ls).1
                (open_page w st sess ls).2.1 evs) as [Hp Hs].
  rewrite Hp in Hpaid. apply open_page_session in Hpaid.
  unfold Client.formData. rewrite Hs.
  destruct (Client.sessionId (open_page w st sess ls).2.1) as [[|x s]|]; try done.
  exists (x :: s). split; [done|]. split; [done|]. apply lookup_insert_eq.
Qed.

Lemma X19_paid_client_witness :
  let ls : gmap jsstring jsstring :=
    {[ js "paid" := js "true"; js "sessionId" := js "cs_1" ]} in
  let o := open_page (sample_world true) paid_state None ls in
  let c := (browse o.1 o.2.1 [QuestionChange (js "What is the term?")]).2 in
  Client.paid c = true ∧
  ∃ s, Client.sessionId c = Some s ∧ s ≠ [] ∧
       Client.formData c !! js "sessionId" = Some (FText s).
Proof.
  split; [reflexivity|].
  exact (X19_paid_client_holds_session (sample_world true) paid_state None
    {[ js "paid" := js "true"; js "sessionId" := js "cs_1" ]}
    [QuestionChange (js "What is the term?")] eq_refl).
Defined.

(** X20 (from checkout to question).  On a configured server, at any point
    of its life: the user returns from the checkout with a session_id the
    provider reports as paid.  The client then considers itself paid, holds
    that identifier and stores both in localStorage; and when the user picks
    a file, types a question that is not blank and asks, the form is posted
    and the server answers neither 400 nor 402, whatever happened on the
    server in between. *)
Theorem X20_checkout_then_ask (d : gmap jsstring Buffer)
  (before between : list (World * Request)) (w w' : World)
  (x : N) (s : jsstring) (ls : gmap jsstring jsstring)
  (f : Client.BrowserFile) (q : jsstring) (tmp : jsstring)
  (Hprovider : checkout_sessions_retrieve w (JString (x :: s)) =
               Some (JString (js "paid")))
  (Hq : trim q ≠ []) :
  let opened := open_page w (serve (start true d) before) (Some (x :: s)) ls in
  let c := (browse opened.1 opened.2.1
              [FileChange (Some f); QuestionChange q]).2 in
  let st := serve opened.1 between in
  let o := post_query w' st (ask_request f tmp (Client.formData c)) in
  Client.paid c = true ∧
  Client.sessionId c = Some (x :: s) ∧
  opened.2.2 !! js "paid" = Some (js "true") ∧
  opened.2.2 !! js "sessionId" = Some (x :: s) ∧
  Client.asked c = Client.Post f (Client.formData c) ∧
  status (reply o) ≠ 400 ∧ status (reply o) ≠ 402.
Proof.
  cbv zeta. unfold open_page.
  assert (prop ({[js "session_id" := FText (x :: s)]} : gmap jsstring field)
            "session_id" = JString (x :: s)) as Hprop.
  { unfold prop. by rewrite lookup_singleton_eq. }
  rewrite checkout_session_paid;
    [|apply serve_stripe|by rewrite Hprop|by rewrite Hprop].
  rewrite Hprop. simpl.
  assert (Client.asked
            (Client.setQuestion
               (Client.setFile (Client.setPaid Client.initial (x :: s)) (Some f)) q) =
          Client.Post f
            (Client.formData
               (Client.setQuestion
                  (Client.setFile (Client.setPaid Client.initial (x :: s)) (Some f)) q)))
    as Hasked.
  { unfold Client.asked. simpl. destruct (trim q); done. }
  split; [done|]. split; [done|].
  split; [by rewrite lookup_insert_ne, lookup_insert_eq by discriminate|].
  split; [by rewrite lookup_insert_eq|]. split; [exact Hasked|].
  split.
  - intros H. apply post_query_400 in H as [H|H]; [done|].
    simpl in H. rewrite formData_question in H. simpl in H.
    by rewrite question_required_trimmed in H.
  - intros H. apply post_query_402 in H as (_ & _ & H). simpl in H.
    rewrite formData_sessionId in H. simpl in H.
    unfold payment_required in H. simpl in H.
    rewrite serve_paid in H; [done|]. simpl.
    apply get_set_same, serve_proto. done.
Qed.

Lemma X20_checkout_then_ask_witness :
  let w := sample_world true in
  let opened := open_page w (serve (start true ∅) []) (Some (js "cs_1")) ∅ in
  let c := (browse opened.1 opened.2.1
              [FileChange (Some sample_file);
               QuestionChange (js "What is the term?")]).2 in
  let o := post_query w (serve opened.1 [])
             (ask_request sample_file (js "uploads/3f2a") (Client.formData c)) in
  checkout_sessions_retrieve w (JString (js "cs_1")) = Some (JString (js "paid")) ∧
  trim (js "What is the term?") ≠ [] ∧
  status (reply o) ≠ 402.
Proof.
  assert (H : trim (js "What is the term?") ≠ []) by discriminate.
  split; [reflexivity|]. split; [exact H|].
  exact (proj2 (proj2 (proj2 (proj2 (proj2 (proj2
    (X20_checkout_then_ask ∅ [] [] (sample_world true) (sample_world true)
       99 (js "s_1") ∅ sample_file (js "What is the term?") (js "uploads/3f2a")
       eq_refl H))))))).
Defined.

(** X21 (a stored paid flag does not open the server).  A client restores
    'paid' and a session identifier from localStorage.  If the server does
    not hold that identifier (after a restart, say) and it is not the name
    of an inherited member, then asking a question with a file gets the 402
    message 'Payment required. Please purchase access to ask questions.' as
    the answer shown, while the client still considers itself paid. *)
Theorem X21_stored_flag_against_unknown_session (w : World) (tmp : jsstring)
  (st : State) (ls : gmap jsstring jsstring) (sid : jsstring)
  (f : Client.BrowserFile) (q : jsstring)
  (Hflag : ls !! js "paid" = Some (js "true"))
  (Hstored : ls !! js "sessionId" = Some sid)
  (Hsid : sid ≠ [])
  (Hunknown : paidSessions st !! sid = None)
  (Hown_name : sid ∉ Object_prototype)
  (Hq : trim q ≠ []) :
  let c0 := (open_page w st None ls).2.1 in
  let c := (browse st c0 [FileChange (Some f); QuestionChange q; Ask w tmp]).2 in
  Client.paid c0 = true ∧
  Client.answer c = js "Payment required. Please purchase access to ask questions." ∧
  Client.paid c = true ∧
  Client.loadingAsk c = false.
Proof.
  cbv zeta. unfold open_page. simpl. unfold Client.mount_restored.
  rewrite Hstored, Hflag, bool_decide_eq_true_2 by done.
  destruct sid as [|x s]; [done|]. simpl. split; [done|].
  unfold handleAsk, Client.asked. simpl.
  destruct (trim q) as [|y t] eqn:E; [done|]. simpl.
  assert (post_query w st
            (ask_request f tmp
               (Client.formData
                  (Client.setQuestion
                     (Client.setFile (Client.setPaid Client.initial (x :: s)) (Some f))
                     q))) =
          respond (uploaded st {| upload_name := Client.name f; upload_path := tmp;
                                  upload_bytes := Client.bytes f |}) [] 402
            (Error (js "Payment required. Please purchase access to ask questions.")))
    as ->.
  { match goal with
    | |- post_query _ _ ?r = _ => rewrite (post_query_file w st r _ eq_refl)
    end.
    apply query_payment.
    - simpl. rewrite formData_question. simpl.
      apply question_required_trimmed. by rewrite E.
    - simpl. rewrite formData_sessionId. simpl.
      unfold payment_required, get_property. simpl.
      by rewrite Hunknown, bool_decide_eq_false_2. }
  done.
Qed.

Lemma X21_stored_flag_witness :
  let ls : gmap jsstring jsstring :=
    {[ js "paid" := js "true"; js "sessionId" := js "cs_1" ]} in
  let st := start true ∅ in
  let c0 := (open_page (sample_world true) st None ls).2.1 in
  let c := (browse st c0 [FileChange (Some sample_file);
                          QuestionChange (js "What is the term?");
                          Ask (sample_world true) (js "uploads/3f2a")]).2 in
  ls !! js "paid" = Some (js "true") ∧
  ls !! js "sessionId" = Some (js "cs_1") ∧
  js "cs_1" ≠ [] ∧
  paidSessions st !! js "cs_1" = None ∧
  (js "cs_1" ∉ Object_prototype) ∧
  trim (js "What is the term?") ≠ [] ∧
  Client.answer c = js "Payment required. Please purchase access to ask questions.".
Proof.
  assert (H1 : js "cs_1" ≠ []) by discriminate.
  assert (H2 : js "cs_1" ∉ Object_prototype).
  { apply (bool_decide_eq_false_1 _). vm_compute. reflexivity. }
  assert (H3 : trim (js "What is the term?") ≠ []) by discriminate.
  split; [reflexivity|]. split; [reflexivity|]. split; [exact H1|].
  split; [reflexivity|]. split; [exact H2|]. split; [exact H3|].
  exact (proj1 (proj2 (X21_stored_flag_against_unknown_session (sample_world true)
    (js "uploads/3f2a") (start true ∅)
    {[ js "paid" := js "true"; js "sessionId" := js "cs_1" ]} (js "cs_1")
    sample_file (js "What is the term?") eq_refl eq_refl H1 eq_refl H2 H3))).
Defined.

Lemma shown_query_reply w st r :
  let o := post_query w st r in
  Client.shown (Some (reply o)) ≠ [] ∧
  (∀ a, body (reply o) = Answer a → status (reply o) = 200 →
        Client.shown (Some (reply o)) =
        match a with [] => js "No answer returned." | _ :: _ => a end) ∧
  (∀ msg, body (reply o) = Error msg → status (reply o) ≠ 200 →
          Client.shown (Some (reply o)) = msg).
Proof.
  cbv zeta. pose proof (post_query_status w st r) as Hst.
  pose proof (post_query_bodies w st r) as [H200 Herr].
  unfold Client.shown, Client.resolves, query_statuses in *.
  destruct (reply (post_query w st r)) as [code b]. simpl in *.
  rewrite !elem_of_cons, elem_of_nil in Hst.
  destruct Hst as [->|[->|[->|[->|[]]]]]; simpl.
  - destruct (H200 eq_refl) as [a ->]. simpl.
    split; [by destruct a|]. split; [|done]. intros a' [= <-] _. by destruct a.
  - destruct (Herr ltac:(done)) as (msg & -> & Hne). simpl.
    split; [by destruct msg|]. split; [done|]. intros ? [= <-] _. by destruct msg.
  - destruct (Herr ltac:(done)) as (msg & -> & Hne). simpl.
    split; [by destruct msg|]. split; [done|]. intros ? [= <-] _. by destruct msg.
  - destruct (Herr ltac:(done)) as (msg & -> & Hne). simpl.
    split; [by destruct msg|]. split; [done|]. intros ? [= <-] _. by destruct msg.
Qed.

(** X22 (the client always shows something).  After handleAsk has posted a
    form and the server has answered, the answer shown is never empty and
    the loading flag is off: it is the model's answer, or 'No answer
    returned.' when that answer is the empty string, or the server's own
    error message for a 402 or a 500. *)
Theorem X22_client_shows_outcome (w : World) (tmp : jsstring) (st : State)
  (c : Client.App) (f : Client.BrowserFile) (form' : gmap jsstring field)
  (Hposted : Client.asked c = Client.Post f form') :
  let o := post_query w st (ask_request f tmp form') in
  let c' := (handleAsk w tmp st c).2 in
  (handleAsk w tmp st c).1 = final o ∧
  Client.answer c' ≠ [] ∧
  Client.loadingAsk c' = false ∧
  (∀ a, body (reply o) = Answer a → status (reply o) = 200 →
        Client.answer c' =
        match a with [] => js "No answer returned." | _ :: _ => a end) ∧
  (∀ msg, body (reply o) = Error msg → status (reply o) ≠ 200 →
          Client.answer c' = msg).
Proof.
  cbv zeta. unfold handleAsk. rewrite Hposted. simpl.
  split; [done|].
  pose proof (shown_query_reply w st (ask_request f tmp form')) as (H1 & H2 & H3).
  split; [exact H1|]. split; [done|]. split; [exact H2|exact H3].
Qed.

Lemma X22_client_shows_outcome_witness :
  let form' := Client.formData sample_client in
  Client.asked sample_client = Client.Post sample_file form' ∧
  Client.answer (handleAsk (sample_world true) (js "uploads/3f2a") paid_state
                   sample_client).2 ≠ [].
Proof.
  split; [reflexivity|].
  exact (proj1 (proj2 (X22_client_shows_outcome (sample_world true)
    (js "uploads/3f2a") paid_state sample_client sample_file
    (Client.formData sample_client) eq_refl))).
Defined.

(** X23 (when the purchase button leaves the page).  handlePurchase sends
    the browser to a URL exactly when Stripe is configured on the server,
    the provider created the session, and the URL it returned is not empty;
    the browser goes to that very URL.  In every other case (server not
    configured, creation rejected) the user stays on the page. *)
Theorem X23_purchase_navigates (w : World) (st : State) (url : jsval) :
  handlePurchase w st = Some url ↔
  stripe st = true ∧ truthy url = true ∧
  ∃ id, checkout_sessions_create w = inl (url, id).
Proof.
  unfold handlePurchase, create_checkout_session.
  destruct (stripe st); simpl.
  - destruct (checkout_sessions_create w) as [[url' id]|err]; simpl.
    + destruct (truthy url') eqn:E.
      * split; [intros [= <-]; eauto|]. by intros (_ & _ & id' & [= -> _]).
      * split; [done|]. intros (_ & Hu & id' & [= <- _]). congruence.
    + split; [done|]. by intros (_ & _ & id' & ?).
  - split; [done|]. by intros (? & _).
Qed.
